(** * BLE scanning shim and the address stream codec

    A shallow embedding of
      - [stack/include/bt_types.h]: [BDADDR_TO_STREAM], [STREAM_TO_BDADDR];
      - [main/shim/le_scanning_manager.cc]: [BleScannerInterfaceImpl].

    Bytes are [Byte.byte], byte arrays and vectors are lists, a stream is a
    byte buffer with a cursor (an offset of type [nat]).  The calls the shim
    makes on the lower scanning engine, the closures it posts to the JNI
    thread and its log lines are recorded, in program order, in a trace.
    Of bt_types.h the integer, array and address macros of the stream codec
    are embedded as well, with the HCI header, trace word and address kind
    macros. *)

From Stdlib Require Import ZArith Lia Ascii String.
From Stdlib.Strings Require Import Byte.
From stdpp Require Import base tactics option list numbers strings gmap.

Local Open Scope Z_scope.
Local Open Scope list_scope.

(** ** Device addresses *)

(** [#define BD_ADDR_LEN 6] *)
Definition BD_ADDR_LEN : nat := 6.

(** Modelled from the spec: [Address::ToString], [Address::FromString],
    [RawAddress::ToString] and [RawAddress::FromString] are declared outside
    these sources.  Section 3: the canonical string form of an address is
    [XX:XX:XX:XX:XX:XX] (uppercase hex, colons); section 4.B: parsing is
    case-insensitive, emission is uppercase. *)
Module AddressString.

Definition hex_digit (n : N) : ascii :=
  if (n <? 10)%N then ascii_of_N (N_of_ascii "0" + n)
  else ascii_of_N (N_of_ascii "A" + (n - 10)).

(** The value of a hex digit of either case, by its character code. *)
Definition hex_value (c : ascii) : option N :=
  let code := N_of_ascii c in
  if ((N_of_ascii "0" <=? code) && (code <=? N_of_ascii "9"))%N then
    Some (code - N_of_ascii "0")%N
  else if ((N_of_ascii "A" <=? code) && (code <=? N_of_ascii "F"))%N then
    Some (code - N_of_ascii "A" + 10)%N
  else if ((N_of_ascii "a" <=? code) && (code <=? N_of_ascii "f"))%N then
    Some (code - N_of_ascii "a" + 10)%N
  else None.

(** One byte as two uppercase hex digits. *)
Definition emit_byte (b : byte) (tail : string) : string :=
    String (hex_digit (Byte.to_N b / 16))
      (String (hex_digit (Byte.to_N b mod 16)) tail).

Definition parse_byte (c1 c2 : ascii) : option byte :=
    hi ← hex_value c1; lo ← hex_value c2; Byte.of_N (16 * hi + lo).

(** The bytes in order, two hex digits each, with a colon between. *)
Fixpoint emit (l : list byte) : string :=
    match l with
    | [] => EmptyString
    | [b] => emit_byte b EmptyString
    | b :: rest => emit_byte b (String ":"%char (emit rest))
    end.

(** Exactly [n] colon-separated two-digit groups, nothing else. *)
Fixpoint parse (n : nat) (s : string) : option (list byte) :=
    match n, s with
    | S n', String c1 (String c2 rest) =>
        b ← parse_byte c1 c2;
        match n', rest with
        | O, EmptyString => Some [b]
        | S _, String ":"%char rest' => (b ::.) <$> parse n' rest'
        | _, _ => None
        end
    | _, _ => None
    end.

End AddressString.

(** [RawAddress]: the upper layer's address, [uint8_t address[6]]. *)
Module RawAddress.
Record t : Type := mk { address : list byte }.

Definition wf (a : t) : Prop := length (address a) = BD_ADDR_LEN.

Definition ToString (a : t) : string := AddressString.emit (address a).

(** [static bool FromString(const std::string& from, RawAddress& to)]:
      the result flag and the out-parameter, which a failed parse leaves
      as it was. *)
Definition FromString (from : string) (to : t) : bool * t :=
    match AddressString.parse BD_ADDR_LEN from with
    | Some l => (true, mk l)
    | None => (false, to)
    end.
End RawAddress.

(** The lower engine's types, [bluetooth::hci]. *)
Module hci.

(** [bluetooth::hci::Address], six bytes as well. *)
Module Address.
Record t : Type := mk { address : list byte }.

Definition wf (a : t) : Prop := length (address a) = BD_ADDR_LEN.

Definition ToString (a : t) : string := AddressString.emit (address a).

Definition FromString (from : string) (to : t) : bool * t :=
      match AddressString.parse BD_ADDR_LEN from with
      | Some l => (true, mk l)
      | None => (false, to)
      end.
End Address.

(** [bluetooth::hci::Uuid], declared outside these sources: the
      constructors and the accessor the shim calls, and the value a
      default-constructed one holds. *)
Module Uuid.
Class Ops (H : Type) : Type := {
      From16Bit : Z → H;
      From32Bit : Z → H;
      From128BitBE : list byte → H;
      To128BitBE : H → list byte;
      default : H;
    }.
End Uuid.

(** [bluetooth::hci::AdvertisingFilterParameter], with the fields the
    shim assigns.  The class is declared outside these sources: what a
    default-initialized object of it holds is a parameter, see
    [Defaults]. *)
Module AdvertisingFilterParameter.
Record t : Type := mk {
      feature_selection : Z;
      list_logic_type : Z;
      filter_logic_type : Z;
      rssi_high_thresh : Z;
      delivery_mode : Z;
      onfound_timeout : Z;
      onfound_timeout_cnt : Z;
      rssi_low_thres : Z;
      onlost_timeout : Z;
      num_of_tracking_entries : Z;
    }.
End AdvertisingFilterParameter.

(** [bluetooth::hci::AdvertisingPacketContentFilterCommand]. *)
Module AdvertisingPacketContentFilterCommand.
Record t (H : Type) : Type := mk {
      filter_type : Z;
      address : Address.t;
      application_address_type : Z;
      uuid : H;
      uuid_mask : H;
      name : list byte;
      company : Z;
      company_mask : Z;
      data : list byte;
      data_mask : list byte;
    }.
Arguments mk {H}.
Arguments filter_type {H}.
Arguments address {H}.
Arguments application_address_type {H}.
Arguments uuid {H}.
Arguments uuid_mask {H}.
Arguments name {H}.
Arguments company {H}.
Arguments company_mask {H}.
Arguments data {H}.
Arguments data_mask {H}.
End AdvertisingPacketContentFilterCommand.

End hci.

(** [bluetooth::Uuid], declared outside these sources: the methods the shim
    calls on it.  [GetShortestRepresentationSize] returns a [size_t]. *)
Module Uuid.
Class Ops (U : Type) : Type := {
    IsEmpty : U → bool;
    GetShortestRepresentationSize : U → Z;
    As16Bit : U → Z;
    As32Bit : U → Z;
    To128BitBE : U → list byte;
    From128BitBE : list byte → U;
  }.

(** Modelled from the spec: the constants [Uuid::kNumBytes16],
      [kNumBytes32] and [kNumBytes128] are declared outside these sources;
      section 4.C, step 3 has the 16-bit form at width 2, the 32-bit form at
      width 4 and the 128-bit form at width 16. *)
Definition kNumBytes16 : Z := 2.
Definition kNumBytes32 : Z := 4.
Definition kNumBytes128 : Z := 16.
End Uuid.

(** [btgatt_filt_param_setup_t], with the fields the shim reads. *)
Module btgatt_filt_param_setup_t.
Record t : Type := mk {
    feat_seln : Z;
    list_logic_type : Z;
    filt_logic_type : Z;
    rssi_high_thres : Z;
    rssi_low_thres : Z;
    dely_mode : Z;
    found_timeout : Z;
    lost_timeout : Z;
    found_timeout_cnt : Z;
    num_of_tracking_entries : Z;
  }.
End btgatt_filt_param_setup_t.

(** [ApcfCommand], the upper layer's filter command. *)
Module ApcfCommand.
Record t (U : Type) : Type := mk {
    type : Z;
    address : RawAddress.t;
    addr_type : Z;
    uuid : U;
    uuid_mask : U;
    name : list byte;
    company : Z;
    company_mask : Z;
    data : list byte;
    data_mask : list byte;
  }.
Arguments mk {U}.
Arguments type {U}.
Arguments address {U}.
Arguments addr_type {U}.
Arguments uuid {U}.
Arguments uuid_mask {U}.
Arguments name {U}.
Arguments company {U}.
Arguments company_mask {U}.
Arguments data {U}.
Arguments data_mask {U}.
End ApcfCommand.

(** What default-initialization leaves in a local object declared without
    an initializer: an address of either class, and the filter parameter
    record of [ScanFilterParamSetup].  The three classes are declared
    outside these sources, so that nothing here says what such an object
    holds. *)
Class Defaults : Type := {
  default_Address : hci.Address.t;
  default_RawAddress : RawAddress.t;
  default_AdvertisingFilterParameter : hci.AdvertisingFilterParameter.t;
}.

(** ** The byte-stream codec of bt_types.h *)

Module Stream.

(** [*(p) = v]: a store through the cursor; a store outside the buffer
      has no defined result. *)
Definition store (buf : list byte) (p : nat) (v : byte)
    : option (list byte) :=
    if decide (p < length buf)%nat then Some (<[p := v]> buf) else None.

(** The body of the [for] loop of [BDADDR_TO_STREAM], [n] iterations
      from loop index [ijk]:
        [p[0] = a.address[BD_ADDR_LEN - 1 - ijk]; p++] *)
Fixpoint BDADDR_TO_STREAM_loop (n ijk : nat) (a : RawAddress.t)
      (buf : list byte) (p : nat) : option (list byte * nat) :=
    match n with
    | O => Some (buf, p)
    | S n' =>
        v ← RawAddress.address a !! (BD_ADDR_LEN - 1 - ijk)%nat;
        buf' ← store buf p v;
        BDADDR_TO_STREAM_loop n' (S ijk) a buf' (S p)
    end.

(** [inline void BDADDR_TO_STREAM(uint8_t*& p, const RawAddress& a)]:
      [for (int ijk = 0; ijk < BD_ADDR_LEN; ijk++) ...].  Returns the
      buffer and the advanced cursor. *)
Definition BDADDR_TO_STREAM (buf : list byte) (p : nat) (a : RawAddress.t)
    : option (list byte * nat) :=
    BDADDR_TO_STREAM_loop BD_ADDR_LEN 0 a buf p.

(** [*pbda = v]: a store through the descending pointer into the
      address array; [pbda] is an offset from [a.address], and ends the loop
      one below the array. *)
Definition poke (arr : list byte) (pbda : Z) (v : byte)
    : option (list byte) :=
    if decide (0 <= pbda < Z.of_nat (length arr))
    then Some (<[Z.to_nat pbda := v]> arr) else None.

(** The loop of [STREAM_TO_BDADDR]: [*pbda-- = *(p)++;] *)
Fixpoint STREAM_TO_BDADDR_loop (n : nat) (arr : list byte) (pbda : Z)
      (buf : list byte) (p : nat) : option (list byte * nat) :=
    match n with
    | O => Some (arr, p)
    | S n' =>
        v ← buf !! p;
        arr' ← poke arr pbda v;
        STREAM_TO_BDADDR_loop n' arr' (pbda - 1) buf (S p)
    end.

(** [inline void STREAM_TO_BDADDR(RawAddress& a, uint8_t*& p)]:
      [pbda] starts at [a.address + BD_ADDR_LEN - 1]; then
      [BD_ADDR_LEN] iterations.  Returns the address read and the advanced
      cursor. *)
Definition STREAM_TO_BDADDR (a : RawAddress.t) (buf : list byte) (p : nat)
    : option (RawAddress.t * nat) :=
    '(arr, p') ← STREAM_TO_BDADDR_loop BD_ADDR_LEN (RawAddress.address a)
                   (Z.of_nat BD_ADDR_LEN - 1) buf p;
    Some (RawAddress.mk arr, p').

(** *** Integers and arrays in a stream *)

(** [(uint8_t)(x)] stored as a byte, and a byte read as an integer. *)
Definition to_uint8 (x : Z) : byte :=
  default x00 (Byte.of_N (Z.to_N (x mod 256))).
Definition of_uint8 (b : byte) : Z := Z.of_N (Byte.to_N b).

(** Conversion to [uint16_t], [uint32_t] and [uint64_t]. *)
Definition as_uint16 (x : Z) : Z := x mod 2 ^ 16.
Definition as_uint32 (x : Z) : Z := x mod 2 ^ 32.
Definition as_uint64 (x : Z) : Z := x mod 2 ^ 64.

(** [p[0] = (uint8_t)(x); p++], on the buffer and its cursor. *)
Definition put (x : Z) (st : list byte * nat) : option (list byte * nat) :=
  buf' ← store st.1 st.2 (to_uint8 x); Some (buf', S st.2).

(** [p[k]], the byte [k] places after the cursor, as an integer. *)
Definition peek (buf : list byte) (p k : nat) : option Z :=
  of_uint8 <$> buf !! (p + k)%nat.

(** [(uint32_t)(p[k])] and [(uint64_t)(p[k])] *)
Definition peek32 (buf : list byte) (p k : nat) : option Z :=
  as_uint32 <$> peek buf p k.
Definition peek64 (buf : list byte) (p k : nat) : option Z :=
  as_uint64 <$> peek buf p k.

(** [UINT8_TO_STREAM(p, u8)] and [UINT8_TO_BE_STREAM(p, u8)] *)
Definition UINT8_TO_STREAM (buf : list byte) (p : nat) (u8 : Z)
  : option (list byte * nat) := put u8 (buf, p).
Definition UINT8_TO_BE_STREAM (buf : list byte) (p : nat) (u8 : Z)
  : option (list byte * nat) := put u8 (buf, p).

(** [UINT16_TO_STREAM(p, u16)] *)
Definition UINT16_TO_STREAM (buf : list byte) (p : nat) (u16 : Z)
  : option (list byte * nat) :=
  st ← put u16 (buf, p);
  put (u16 ≫ 8) st.

(** [UINT24_TO_STREAM(p, u24)] *)
Definition UINT24_TO_STREAM (buf : list byte) (p : nat) (u24 : Z)
  : option (list byte * nat) :=
  st ← put u24 (buf, p);
  st ← put (u24 ≫ 8) st;
  put (u24 ≫ 16) st.

(** [UINT32_TO_STREAM(p, u32)] *)
Definition UINT32_TO_STREAM (buf : list byte) (p : nat) (u32 : Z)
  : option (list byte * nat) :=
  st ← put u32 (buf, p);
  st ← put (u32 ≫ 8) st;
  st ← put (u32 ≫ 16) st;
  put (u32 ≫ 24) st.

(** [UINT16_TO_BE_STREAM(p, u16)] *)
Definition UINT16_TO_BE_STREAM (buf : list byte) (p : nat) (u16 : Z)
  : option (list byte * nat) :=
  st ← put (u16 ≫ 8) (buf, p);
  put u16 st.

(** [UINT24_TO_BE_STREAM(p, u24)] *)
Definition UINT24_TO_BE_STREAM (buf : list byte) (p : nat) (u24 : Z)
  : option (list byte * nat) :=
  st ← put (u24 ≫ 16) (buf, p);
  st ← put (u24 ≫ 8) st;
  put u24 st.

(** [UINT32_TO_BE_STREAM(p, u32)] *)
Definition UINT32_TO_BE_STREAM (buf : list byte) (p : nat) (u32 : Z)
  : option (list byte * nat) :=
  st ← put (u32 ≫ 24) (buf, p);
  st ← put (u32 ≫ 16) st;
  st ← put (u32 ≫ 8) st;
  put u32 st.

(** [UINT64_TO_BE_STREAM(p, u64)] *)
Definition UINT64_TO_BE_STREAM (buf : list byte) (p : nat) (u64 : Z)
  : option (list byte * nat) :=
  st ← put (u64 ≫ 56) (buf, p);
  st ← put (u64 ≫ 48) st;
  st ← put (u64 ≫ 40) st;
  st ← put (u64 ≫ 32) st;
  st ← put (u64 ≫ 24) st;
  st ← put (u64 ≫ 16) st;
  st ← put (u64 ≫ 8) st;
  put u64 st.

(** [STREAM_TO_UINT8(u8, p)] and [BE_STREAM_TO_UINT8(u8, p)]: the value
    read and the advanced cursor. *)
Definition STREAM_TO_UINT8 (buf : list byte) (p : nat) : option (Z * nat) :=
  b0 ← peek buf p 0; Some (b0, (p + 1)%nat).
Definition BE_STREAM_TO_UINT8 (buf : list byte) (p : nat)
  : option (Z * nat) :=
  b0 ← peek buf p 0; Some (b0, (p + 1)%nat).

(** [STREAM_TO_UINT16(u16, p)]: the two [uint16_t] operands are promoted
    to [int], where the sum is below [2^16]. *)
Definition STREAM_TO_UINT16 (buf : list byte) (p : nat) : option (Z * nat) :=
  b0 ← peek buf p 0; b1 ← peek buf p 1;
  Some (as_uint16 b0 + (as_uint16 b1 ≪ 8), (p + 2)%nat).

(** [STREAM_TO_UINT24(u32, p)], in [uint32_t] arithmetic. *)
Definition STREAM_TO_UINT24 (buf : list byte) (p : nat) : option (Z * nat) :=
  b0 ← peek32 buf p 0; b1 ← peek32 buf p 1; b2 ← peek32 buf p 2;
  Some (as_uint32 (as_uint32 (b0 + as_uint32 (b1 ≪ 8))
                   + as_uint32 (b2 ≪ 16)), (p + 3)%nat).

(** [STREAM_TO_UINT32(u32, p)] *)
Definition STREAM_TO_UINT32 (buf : list byte) (p : nat) : option (Z * nat) :=
  b0 ← peek32 buf p 0; b1 ← peek32 buf p 1; b2 ← peek32 buf p 2;
  b3 ← peek32 buf p 3;
  Some (as_uint32 (as_uint32 (as_uint32 (b0 + as_uint32 (b1 ≪ 8))
                              + as_uint32 (b2 ≪ 16))
                   + as_uint32 (b3 ≪ 24)), (p + 4)%nat).

(** [STREAM_TO_UINT64(u64, p)], in [uint64_t] arithmetic. *)
Definition STREAM_TO_UINT64 (buf : list byte) (p : nat) : option (Z * nat) :=
  b0 ← peek64 buf p 0; b1 ← peek64 buf p 1; b2 ← peek64 buf p 2;
  b3 ← peek64 buf p 3; b4 ← peek64 buf p 4; b5 ← peek64 buf p 5;
  b6 ← peek64 buf p 6; b7 ← peek64 buf p 7;
  Some (as_uint64 (as_uint64 (as_uint64 (as_uint64 (as_uint64 (as_uint64
          (as_uint64 (b0 + as_uint64 (b1 ≪ 8)) + as_uint64 (b2 ≪ 16))
          + as_uint64 (b3 ≪ 24)) + as_uint64 (b4 ≪ 32))
          + as_uint64 (b5 ≪ 40)) + as_uint64 (b6 ≪ 48))
          + as_uint64 (b7 ≪ 56)), (p + 8)%nat).

(** [BE_STREAM_TO_UINT16(u16, p)]: the sum, in [int], converted to
    [uint16_t]. *)
Definition BE_STREAM_TO_UINT16 (buf : list byte) (p : nat)
  : option (Z * nat) :=
  b0 ← peek buf p 0; b1 ← peek buf p 1;
  Some (as_uint16 ((as_uint16 b0 ≪ 8) + as_uint16 b1), (p + 2)%nat).

(** [BE_STREAM_TO_UINT24(u32, p)] *)
Definition BE_STREAM_TO_UINT24 (buf : list byte) (p : nat)
  : option (Z * nat) :=
  b0 ← peek32 buf p 0; b1 ← peek32 buf p 1; b2 ← peek32 buf p 2;
  Some (as_uint32 (as_uint32 (b2 + as_uint32 (b1 ≪ 8))
                   + as_uint32 (b0 ≪ 16)), (p + 3)%nat).

(** [BE_STREAM_TO_UINT32(u32, p)] *)
Definition BE_STREAM_TO_UINT32 (buf : list byte) (p : nat)
  : option (Z * nat) :=
  b0 ← peek32 buf p 0; b1 ← peek32 buf p 1; b2 ← peek32 buf p 2;
  b3 ← peek32 buf p 3;
  Some (as_uint32 (as_uint32 (as_uint32 (b3 + as_uint32 (b2 ≪ 8))
                              + as_uint32 (b1 ≪ 16))
                   + as_uint32 (b0 ≪ 24)), (p + 4)%nat).

(** [BE_STREAM_TO_UINT64(u64, p)] *)
Definition BE_STREAM_TO_UINT64 (buf : list byte) (p : nat)
  : option (Z * nat) :=
  b0 ← peek64 buf p 0; b1 ← peek64 buf p 1; b2 ← peek64 buf p 2;
  b3 ← peek64 buf p 3; b4 ← peek64 buf p 4; b5 ← peek64 buf p 5;
  b6 ← peek64 buf p 6; b7 ← peek64 buf p 7;
  Some (as_uint64 (as_uint64 (as_uint64 (as_uint64 (as_uint64 (as_uint64
          (as_uint64 (b7 + as_uint64 (b6 ≪ 8)) + as_uint64 (b5 ≪ 16))
          + as_uint64 (b4 ≪ 24)) + as_uint64 (b3 ≪ 32))
          + as_uint64 (b2 ≪ 40)) + as_uint64 (b1 ≪ 48))
          + as_uint64 (b0 ≪ 56)), (p + 8)%nat).

(** The loop of [ARRAY_TO_STREAM(p, a, len)], [n] iterations from loop
    index [ijk]: [p[0] = a[ijk]; p++]. *)
Fixpoint ARRAY_TO_STREAM_loop (n ijk : nat) (a buf : list byte) (p : nat)
  : option (list byte * nat) :=
  match n with
  | O => Some (buf, p)
  | S n' =>
      v ← a !! ijk;
      buf' ← store buf p v;
      ARRAY_TO_STREAM_loop n' (S ijk) a buf' (S p)
  end.

(** [ARRAY_TO_STREAM(p, a, len)] *)
Definition ARRAY_TO_STREAM (buf : list byte) (p : nat) (a : list byte)
    (len : nat) : option (list byte * nat) :=
  ARRAY_TO_STREAM_loop len 0 a buf p.

(** The loop of [REVERSE_ARRAY_TO_STREAM(p, a, len)]:
    [p[0] = a[len - 1 - ijk]; p++]. *)
Fixpoint REVERSE_ARRAY_TO_STREAM_loop (n ijk len : nat) (a buf : list byte)
    (p : nat) : option (list byte * nat) :=
  match n with
  | O => Some (buf, p)
  | S n' =>
      v ← a !! (len - 1 - ijk)%nat;
      buf' ← store buf p v;
      REVERSE_ARRAY_TO_STREAM_loop n' (S ijk) len a buf' (S p)
  end.

(** [REVERSE_ARRAY_TO_STREAM(p, a, len)] *)
Definition REVERSE_ARRAY_TO_STREAM (buf : list byte) (p : nat)
    (a : list byte) (len : nat) : option (list byte * nat) :=
  REVERSE_ARRAY_TO_STREAM_loop len 0 len a buf p.

(** [ARRAY32_TO_STREAM], [ARRAY16_TO_STREAM], [ARRAY8_TO_STREAM],
    [LAP_TO_STREAM] and [DEVCLASS_TO_STREAM]: the same loop with the
    length written out, [a[31 - ijk]] for 32 iterations and so on. *)
Definition LAP_LEN : nat := 3.
Definition DEV_CLASS_LEN : nat := 3.
Definition ARRAY32_TO_STREAM (buf : list byte) (p : nat) (a : list byte)
  : option (list byte * nat) :=
  REVERSE_ARRAY_TO_STREAM_loop 32 0 32 a buf p.
Definition ARRAY16_TO_STREAM (buf : list byte) (p : nat) (a : list byte)
  : option (list byte * nat) :=
  REVERSE_ARRAY_TO_STREAM_loop 16 0 16 a buf p.
Definition ARRAY8_TO_STREAM (buf : list byte) (p : nat) (a : list byte)
  : option (list byte * nat) :=
  REVERSE_ARRAY_TO_STREAM_loop 8 0 8 a buf p.
Definition LAP_TO_STREAM (buf : list byte) (p : nat) (a : list byte)
  : option (list byte * nat) :=
  REVERSE_ARRAY_TO_STREAM_loop LAP_LEN 0 LAP_LEN a buf p.
Definition DEVCLASS_TO_STREAM (buf : list byte) (p : nat) (a : list byte)
  : option (list byte * nat) :=
  REVERSE_ARRAY_TO_STREAM_loop DEV_CLASS_LEN 0 DEV_CLASS_LEN a buf p.

(** The loop of [STREAM_TO_ARRAY(a, p, len)]: [a[ijk] = p[0]; p++].
    Returns the array and the advanced cursor. *)
Fixpoint STREAM_TO_ARRAY_loop (n ijk : nat) (a buf : list byte) (p : nat)
  : option (list byte * nat) :=
  match n with
  | O => Some (a, p)
  | S n' =>
      v ← buf !! p;
      a' ← store a ijk v;
      STREAM_TO_ARRAY_loop n' (S ijk) a' buf (S p)
  end.

(** [STREAM_TO_ARRAY(a, p, len)] *)
Definition STREAM_TO_ARRAY (a buf : list byte) (p len : nat)
  : option (list byte * nat) :=
  STREAM_TO_ARRAY_loop len 0 a buf p.

(** The loop of [REVERSE_STREAM_TO_ARRAY(a, p, len)], with [_pa] an
    offset from [a]: [_pa[0] = p[0]; _pa--; p++]. *)
Fixpoint REVERSE_STREAM_TO_ARRAY_loop (n : nat) (a : list byte) (_pa : Z)
    (buf : list byte) (p : nat) : option (list byte * nat) :=
  match n with
  | O => Some (a, p)
  | S n' =>
      v ← buf !! p;
      a' ← poke a _pa v;
      REVERSE_STREAM_TO_ARRAY_loop n' a' (_pa - 1) buf (S p)
  end.

(** [REVERSE_STREAM_TO_ARRAY(a, p, len)]: [_pa] starts at
    [a + len - 1]. *)
Definition REVERSE_STREAM_TO_ARRAY (a buf : list byte) (p len : nat)
  : option (list byte * nat) :=
  REVERSE_STREAM_TO_ARRAY_loop len a (Z.of_nat len - 1) buf p.

(** [STREAM_TO_ARRAY32], [STREAM_TO_ARRAY16], [STREAM_TO_ARRAY8],
    [STREAM_TO_DEVCLASS] and [STREAM_TO_LAP]: the same loop, from
    [a + 31] for 32 iterations and so on. *)
Definition STREAM_TO_ARRAY32 (a buf : list byte) (p : nat)
  : option (list byte * nat) :=
  REVERSE_STREAM_TO_ARRAY_loop 32 a 31 buf p.
Definition STREAM_TO_ARRAY16 (a buf : list byte) (p : nat)
  : option (list byte * nat) :=
  REVERSE_STREAM_TO_ARRAY_loop 16 a 15 buf p.
Definition STREAM_TO_ARRAY8 (a buf : list byte) (p : nat)
  : option (list byte * nat) :=
  REVERSE_STREAM_TO_ARRAY_loop 8 a 7 buf p.
Definition STREAM_TO_DEVCLASS (a buf : list byte) (p : nat)
  : option (list byte * nat) :=
  REVERSE_STREAM_TO_ARRAY_loop DEV_CLASS_LEN a (Z.of_nat DEV_CLASS_LEN - 1)
    buf p.
Definition STREAM_TO_LAP (a buf : list byte) (p : nat)
  : option (list byte * nat) :=
  REVERSE_STREAM_TO_ARRAY_loop LAP_LEN a (Z.of_nat LAP_LEN - 1) buf p.

(** *** Headers, trace words, address kinds *)

(** [BT_HDR]: the header fields and the bytes of [data[]] that follow
    them. *)
Record BT_HDR : Type := mkBT_HDR {
  event : Z;
  len : Z;
  offset : Z;
  layer_specific : Z;
  data : list byte;
}.

(** [HCI_GET_CMD_HDR_OPCODE(p)]: the [uint16_t] made of the bytes at
    [offset] and [offset + 1] of the data that follows the header. *)
Definition HCI_GET_CMD_HDR_OPCODE (p : BT_HDR) : option Z :=
  b0 ← peek (data p) (Z.to_nat (offset p)) 0;
  b1 ← peek (data p) (Z.to_nat (offset p)) 1;
  Some (as_uint16 (b0 + (b1 ≪ 8))).

(** [HCI_GET_CMD_HDR_PARAM_LEN(p)] *)
Definition HCI_GET_CMD_HDR_PARAM_LEN (p : BT_HDR) : option Z :=
  peek (data p) (Z.to_nat (offset p)) 2.

(** [HCI_GET_EVT_HDR_OPCODE(p)] and [HCI_GET_EVT_HDR_PARAM_LEN(p)] *)
Definition HCI_GET_EVT_HDR_OPCODE (p : BT_HDR) : option Z :=
  peek (data p) (Z.to_nat (offset p)) 0.
Definition HCI_GET_EVT_HDR_PARAM_LEN (p : BT_HDR) : option Z :=
  peek (data p) (Z.to_nat (offset p)) 1.

(** The fields of a trace word. *)
Definition TRACE_CTRL_MASK : Z := 0xff000000.
Definition TRACE_LAYER_MASK : Z := 0x00ff0000.
Definition TRACE_ORG_MASK : Z := 0x0000ff00.
Definition TRACE_TYPE_MASK : Z := 0x000000ff.
Definition TRACE_GET_CTRL (x : Z) : Z :=
  Z.land (as_uint32 x) TRACE_CTRL_MASK ≫ 24.
Definition TRACE_GET_LAYER (x : Z) : Z :=
  Z.land (as_uint32 x) TRACE_LAYER_MASK ≫ 16.
Definition TRACE_GET_ORG (x : Z) : Z :=
  Z.land (as_uint32 x) TRACE_ORG_MASK ≫ 8.
Definition TRACE_GET_TYPE (x : Z) : Z :=
  Z.land (as_uint32 x) TRACE_TYPE_MASK.

(** [#define BLE_ADDR_IS_STATIC(x) (((x)[0] & 0xC0) == 0xC0)] *)
Definition BLE_ADDR_IS_STATIC (x : list byte) : option bool :=
  b ← x !! 0%nat; Some (bool_decide (Z.land (of_uint8 b) 0xC0 = 0xC0)).

End Stream.

(** ** The shim: main/shim/le_scanning_manager.cc *)

Inductive LogLevel : Type := INFO | WARN | ERROR.

(** A closure handed in by the caller ([RegisterCallback],
    [FilterParamSetupCallback], [FilterConfigCallback], [EnableCallback],
    [Callback]), known by a number. *)
Definition Callback : Type := Z.

(** A [ScanningCallbacks*], the upper callback sink. *)
Definition ScanningCallbacks : Type := Z.

(** Narrowing of an integer to [uint8_t] and to [uint16_t]. *)
Definition uint8 (x : Z) : Z := x mod 256.
Definition uint16 (x : Z) : Z := x mod 65536.

Section BleScannerInterfaceImpl.
Context {uuid_t : Type} `{!Uuid.Ops uuid_t}.
Context {hci_uuid_t : Type} `{!hci.Uuid.Ops hci_uuid_t}.
Context `{!Defaults}.

Abbreviation Command := (hci.AdvertisingPacketContentFilterCommand.t hci_uuid_t).
Abbreviation Apcf := (ApcfCommand.t uuid_t).

(** The entry points of the lower engine the shim calls through
    [bluetooth::shim::GetScanning()], with the arguments as the shim passes
    them; the engine and its parameter types are declared outside these
    sources. *)
Inductive ScanningCall : Type :=
  | Scanning_RegisterScanningCallback
  | Scanning_RegisterScanner (app_uuid : hci_uuid_t)
  | Scanning_Unregister (scanner_id : Z)
  | Scanning_Scan (start : bool)
  | Scanning_ScanFilterParameterSetup (apcf_action filter_index : Z)
      (advertising_filter_parameter : hci.AdvertisingFilterParameter.t)
  | Scanning_ScanFilterAdd (filter_index : Z) (new_filters : list Command)
  | Scanning_ScanFilterEnable (enable : bool)
  | Scanning_SetScanParameters (scan_type scan_interval scan_window : Z).

(** What [base::Bind] and [base::BindOnce] build for the JNI thread. *)
Inductive Closure : Type :=
  | Bind (cb : Callback) (args : list Z)
  | Bind_OnScannerRegistered (callbacks : option ScanningCallbacks)
      (uuid : uuid_t) (scanner_id status : Z)
  | BindOnce_OnScanResult (callbacks : option ScanningCallbacks)
      (event_type address_type : Z) (raw_address : RawAddress.t)
      (primary_phy secondary_phy advertising_sid tx_power rssi
       periodic_advertising_interval : Z) (advertising_data : list byte).

Inductive event : Type :=
  | Log (level : LogLevel) (text : string) (args : list Z)
  | Call (c : ScanningCall)
  | Post (c : Closure).

(** The member [scanning_callbacks_] and what the shim has done so
      far, oldest first. *)
Record State : Type := mkState {
    scanning_callbacks_ : option ScanningCallbacks;
    trace : list event;
  }.

(** A method of the shim: it runs on a state, and either has no defined
      result or returns a value and the next state. *)
Definition Shim (A : Type) : Type := State → option (A * State).

#[global] Instance Shim_ret : MRet Shim := λ A a s, Some (a, s).
#[global] Instance Shim_bind : MBind Shim := λ A B f m s,
    match m s with
    | Some (a, s') => f a s'
    | None => None
    end.

Definition emit (e : event) : Shim unit := λ s,
    Some (tt, mkState (scanning_callbacks_ s) (trace s ++ [e])).

Definition LOG (level : LogLevel) (text : string) (args : list Z)
    : Shim unit := emit (Log level text args).
Definition GetScanning (c : ScanningCall) : Shim unit := emit (Call c).
Definition do_in_jni_thread (c : Closure) : Shim unit := emit (Post c).
Definition undefined {A : Type} : Shim A := λ _, None.

(** Reading and assigning the member [scanning_callbacks_]. *)
Definition get_scanning_callbacks_ : Shim (option ScanningCallbacks) :=
  λ s, Some (scanning_callbacks_ s, s).
Definition set_scanning_callbacks_ (callbacks : option ScanningCallbacks)
  : Shim unit := λ s, Some (tt, mkState callbacks (trace s)).

Definition init : State := mkState None [].

(** [void Init()] *)
Definition Init : Shim unit :=
    GetScanning Scanning_RegisterScanningCallback.

(** [void RegisterScanner(const bluetooth::Uuid& uuid, RegisterCallback)]:
      the callback parameter has no name and is not used. *)
Definition RegisterScanner (uuid : uuid_t) (_ : Callback) : Shim unit :=
    LOG INFO "RegisterScanner in shim layer" [];;
    let app_uuid := hci.Uuid.From128BitBE (Uuid.To128BitBE uuid) in
    GetScanning (Scanning_RegisterScanner app_uuid).

(** [void Unregister(int scanner_id)] *)
Definition Unregister (scanner_id : Z) : Shim unit :=
    LOG INFO "Unregister in shim layer, scanner_id:" [scanner_id];;
    GetScanning (Scanning_Unregister scanner_id).

(** [void Scan(bool start)] *)
Definition Scan (start : bool) : Shim unit :=
    LOG INFO "Scan in shim layer" [];;
    GetScanning (Scanning_Scan start).

(** [void ScanFilterParamSetup(uint8_t client_if, uint8_t action,
      uint8_t filter_index, std::unique_ptr<btgatt_filt_param_setup_t>
      filt_param, FilterParamSetupCallback cb)]; a null [filt_param] is
      [None]. *)
Definition ScanFilterParamSetup (client_if action filter_index : Z)
      (filt_param : option btgatt_filt_param_setup_t.t) (cb : Callback)
    : Shim unit :=
    LOG INFO "ScanFilterParamSetup in shim layer" [];;
    let apcf_action := action in
    let advertising_filter_parameter := default_AdvertisingFilterParameter in
    let advertising_filter_parameter :=
      match filt_param with
      | Some fp =>
          let p :=
            {| hci.AdvertisingFilterParameter.feature_selection :=
                 btgatt_filt_param_setup_t.feat_seln fp;
               hci.AdvertisingFilterParameter.list_logic_type :=
                 btgatt_filt_param_setup_t.list_logic_type fp;
               hci.AdvertisingFilterParameter.filter_logic_type :=
                 btgatt_filt_param_setup_t.filt_logic_type fp;
               hci.AdvertisingFilterParameter.rssi_high_thresh :=
                 btgatt_filt_param_setup_t.rssi_high_thres fp;
               hci.AdvertisingFilterParameter.delivery_mode :=
                 btgatt_filt_param_setup_t.dely_mode fp;
               hci.AdvertisingFilterParameter.onfound_timeout :=
                 hci.AdvertisingFilterParameter.onfound_timeout
                   advertising_filter_parameter;
               hci.AdvertisingFilterParameter.onfound_timeout_cnt :=
                 hci.AdvertisingFilterParameter.onfound_timeout_cnt
                   advertising_filter_parameter;
               hci.AdvertisingFilterParameter.rssi_low_thres :=
                 hci.AdvertisingFilterParameter.rssi_low_thres
                   advertising_filter_parameter;
               hci.AdvertisingFilterParameter.onlost_timeout :=
                 hci.AdvertisingFilterParameter.onlost_timeout
                   advertising_filter_parameter;
               hci.AdvertisingFilterParameter.num_of_tracking_entries :=
                 hci.AdvertisingFilterParameter.num_of_tracking_entries
                   advertising_filter_parameter |} in
          if decide (btgatt_filt_param_setup_t.dely_mode fp = 1) then
            {| hci.AdvertisingFilterParameter.feature_selection :=
                 hci.AdvertisingFilterParameter.feature_selection p;
               hci.AdvertisingFilterParameter.list_logic_type :=
                 hci.AdvertisingFilterParameter.list_logic_type p;
               hci.AdvertisingFilterParameter.filter_logic_type :=
                 hci.AdvertisingFilterParameter.filter_logic_type p;
               hci.AdvertisingFilterParameter.rssi_high_thresh :=
                 hci.AdvertisingFilterParameter.rssi_high_thresh p;
               hci.AdvertisingFilterParameter.delivery_mode :=
                 hci.AdvertisingFilterParameter.delivery_mode p;
               hci.AdvertisingFilterParameter.onfound_timeout :=
                 btgatt_filt_param_setup_t.found_timeout fp;
               hci.AdvertisingFilterParameter.onfound_timeout_cnt :=
                 btgatt_filt_param_setup_t.found_timeout_cnt fp;
               hci.AdvertisingFilterParameter.rssi_low_thres :=
                 btgatt_filt_param_setup_t.rssi_low_thres fp;
               hci.AdvertisingFilterParameter.onlost_timeout :=
                 btgatt_filt_param_setup_t.lost_timeout fp;
               hci.AdvertisingFilterParameter.num_of_tracking_entries :=
                 btgatt_filt_param_setup_t.num_of_tracking_entries fp |}
          else p
      | None => advertising_filter_parameter
      end in
    GetScanning (Scanning_ScanFilterParameterSetup apcf_action filter_index
                   advertising_filter_parameter);;
    do_in_jni_thread (Bind cb [0; 0; 0]).

(** The [switch (uuid_len)] of [parse_filter_command], which the source
      has twice, once on [apcf_command.uuid] and once on
      [apcf_command.uuid_mask]: the converted UUID, or [None] for the
      [default:] branch. *)
Definition uuid_switch (uuid_len : Z) (u : uuid_t) : option hci_uuid_t :=
    if decide (uuid_len = Uuid.kNumBytes16) then
      Some (hci.Uuid.From16Bit (Uuid.As16Bit u))
    else if decide (uuid_len = Uuid.kNumBytes32) then
      Some (hci.Uuid.From32Bit (Uuid.As32Bit u))
    else if decide (uuid_len = Uuid.kNumBytes128) then
      Some (hci.Uuid.From128BitBE (Uuid.To128BitBE u))
    else None.

(** [bool parse_filter_command(AdvertisingPacketContentFilterCommand&
      advertising_packet_content_filter_command, ApcfCommand apcf_command)]:
      the result flag and the out-parameter as the call leaves it. *)
Definition parse_filter_command (command : Command) (apcf_command : Apcf)
    : Shim (bool * Command) :=
    let address :=
      (hci.Address.FromString
         (RawAddress.ToString (ApcfCommand.address apcf_command))
         default_Address).2 in
    let c0 : Command :=
      {| hci.AdvertisingPacketContentFilterCommand.filter_type :=
           ApcfCommand.type apcf_command;
         hci.AdvertisingPacketContentFilterCommand.address := address;
         hci.AdvertisingPacketContentFilterCommand.application_address_type :=
           ApcfCommand.addr_type apcf_command;
         hci.AdvertisingPacketContentFilterCommand.uuid :=
           hci.AdvertisingPacketContentFilterCommand.uuid command;
         hci.AdvertisingPacketContentFilterCommand.uuid_mask :=
           hci.AdvertisingPacketContentFilterCommand.uuid_mask command;
         hci.AdvertisingPacketContentFilterCommand.name :=
           hci.AdvertisingPacketContentFilterCommand.name command;
         hci.AdvertisingPacketContentFilterCommand.company :=
           hci.AdvertisingPacketContentFilterCommand.company command;
         hci.AdvertisingPacketContentFilterCommand.company_mask :=
           hci.AdvertisingPacketContentFilterCommand.company_mask command;
         hci.AdvertisingPacketContentFilterCommand.data :=
           hci.AdvertisingPacketContentFilterCommand.data command;
         hci.AdvertisingPacketContentFilterCommand.data_mask :=
           hci.AdvertisingPacketContentFilterCommand.data_mask command |} in
    let uuid_len :=
      uint8 (Uuid.GetShortestRepresentationSize
               (ApcfCommand.uuid apcf_command)) in
    let with_uuid (c : Command) (v : hci_uuid_t) : Command :=
      {| hci.AdvertisingPacketContentFilterCommand.filter_type :=
           hci.AdvertisingPacketContentFilterCommand.filter_type c;
         hci.AdvertisingPacketContentFilterCommand.address :=
           hci.AdvertisingPacketContentFilterCommand.address c;
         hci.AdvertisingPacketContentFilterCommand.application_address_type :=
           hci.AdvertisingPacketContentFilterCommand.application_address_type c;
         hci.AdvertisingPacketContentFilterCommand.uuid := v;
         hci.AdvertisingPacketContentFilterCommand.uuid_mask :=
           hci.AdvertisingPacketContentFilterCommand.uuid_mask c;
         hci.AdvertisingPacketContentFilterCommand.name :=
           hci.AdvertisingPacketContentFilterCommand.name c;
         hci.AdvertisingPacketContentFilterCommand.company :=
           hci.AdvertisingPacketContentFilterCommand.company c;
         hci.AdvertisingPacketContentFilterCommand.company_mask :=
           hci.AdvertisingPacketContentFilterCommand.company_mask c;
         hci.AdvertisingPacketContentFilterCommand.data :=
           hci.AdvertisingPacketContentFilterCommand.data c;
         hci.AdvertisingPacketContentFilterCommand.data_mask :=
           hci.AdvertisingPacketContentFilterCommand.data_mask c |} in
    let with_uuid_mask (c : Command) (v : hci_uuid_t) : Command :=
      {| hci.AdvertisingPacketContentFilterCommand.filter_type :=
           hci.AdvertisingPacketContentFilterCommand.filter_type c;
         hci.AdvertisingPacketContentFilterCommand.address :=
           hci.AdvertisingPacketContentFilterCommand.address c;
         hci.AdvertisingPacketContentFilterCommand.application_address_type :=
           hci.AdvertisingPacketContentFilterCommand.application_address_type c;
         hci.AdvertisingPacketContentFilterCommand.uuid :=
           hci.AdvertisingPacketContentFilterCommand.uuid c;
         hci.AdvertisingPacketContentFilterCommand.uuid_mask := v;
         hci.AdvertisingPacketContentFilterCommand.name :=
           hci.AdvertisingPacketContentFilterCommand.name c;
         hci.AdvertisingPacketContentFilterCommand.company :=
           hci.AdvertisingPacketContentFilterCommand.company c;
         hci.AdvertisingPacketContentFilterCommand.company_mask :=
           hci.AdvertisingPacketContentFilterCommand.company_mask c;
         hci.AdvertisingPacketContentFilterCommand.data :=
           hci.AdvertisingPacketContentFilterCommand.data c;
         hci.AdvertisingPacketContentFilterCommand.data_mask :=
           hci.AdvertisingPacketContentFilterCommand.data_mask c |} in
    let after_uuid : option Command :=
      if Uuid.IsEmpty (ApcfCommand.uuid apcf_command) then Some c0
      else with_uuid c0 <$> uuid_switch uuid_len (ApcfCommand.uuid apcf_command) in
    match after_uuid with
    | None =>
        LOG WARN "illegal UUID length %d" [uint16 uuid_len];;
        mret (false, c0)
    | Some c1 =>
        let after_mask : option Command :=
          if Uuid.IsEmpty (ApcfCommand.uuid_mask apcf_command) then Some c1
          else with_uuid_mask c1
                 <$> uuid_switch uuid_len (ApcfCommand.uuid_mask apcf_command) in
        match after_mask with
        | None =>
            LOG WARN "illegal UUID length %d" [uint16 uuid_len];;
            mret (false, c1)
        | Some c2 =>
            mret (true,
              {| hci.AdvertisingPacketContentFilterCommand.filter_type :=
                   hci.AdvertisingPacketContentFilterCommand.filter_type c2;
                 hci.AdvertisingPacketContentFilterCommand.address :=
                   hci.AdvertisingPacketContentFilterCommand.address c2;
                 hci.AdvertisingPacketContentFilterCommand.application_address_type :=
                   hci.AdvertisingPacketContentFilterCommand.application_address_type c2;
                 hci.AdvertisingPacketContentFilterCommand.uuid :=
                   hci.AdvertisingPacketContentFilterCommand.uuid c2;
                 hci.AdvertisingPacketContentFilterCommand.uuid_mask :=
                   hci.AdvertisingPacketContentFilterCommand.uuid_mask c2;
                 hci.AdvertisingPacketContentFilterCommand.name :=
                   ApcfCommand.name apcf_command;
                 hci.AdvertisingPacketContentFilterCommand.company :=
                   ApcfCommand.company apcf_command;
                 hci.AdvertisingPacketContentFilterCommand.company_mask :=
                   ApcfCommand.company_mask apcf_command;
                 hci.AdvertisingPacketContentFilterCommand.data :=
                   ApcfCommand.data apcf_command;
                 hci.AdvertisingPacketContentFilterCommand.data_mask :=
                   ApcfCommand.data_mask apcf_command |})
        end
    end.

(** [AdvertisingPacketContentFilterCommand command{};] *)
Definition command_init : Command :=
    {| hci.AdvertisingPacketContentFilterCommand.filter_type := 0;
       hci.AdvertisingPacketContentFilterCommand.address := default_Address;
       hci.AdvertisingPacketContentFilterCommand.application_address_type := 0;
       hci.AdvertisingPacketContentFilterCommand.uuid := hci.Uuid.default;
       hci.AdvertisingPacketContentFilterCommand.uuid_mask := hci.Uuid.default;
       hci.AdvertisingPacketContentFilterCommand.name := [];
       hci.AdvertisingPacketContentFilterCommand.company := 0;
       hci.AdvertisingPacketContentFilterCommand.company_mask := 0;
       hci.AdvertisingPacketContentFilterCommand.data := [];
       hci.AdvertisingPacketContentFilterCommand.data_mask := [] |}.

(** The [for] loop of [ScanFilterAdd] over the filters still to do:
      [Some new_filters] when it runs to its end, [None] when it leaves
      through the [return]. *)
Fixpoint ScanFilterAdd_loop (filters : list Apcf) (new_filters : list Command)
    : Shim (option (list Command)) :=
    match filters with
    | [] => mret (Some new_filters)
    | f :: rest =>
        '(ok, command) ← parse_filter_command command_init f;
        if ok : bool then ScanFilterAdd_loop rest (new_filters ++ [command])
        else LOG ERROR "invalid apcf command" [];; mret None
    end.

(** [void ScanFilterAdd(int filter_index, std::vector<ApcfCommand>
      filters, FilterConfigCallback cb)] *)
Definition ScanFilterAdd (filter_index : Z) (filters : list Apcf)
      (cb : Callback) : Shim unit :=
    LOG INFO "ScanFilterAdd in shim layer" [];;
    r ← ScanFilterAdd_loop filters [];
    match r with
    | None => mret tt
    | Some new_filters =>
        GetScanning (Scanning_ScanFilterAdd filter_index new_filters);;
        do_in_jni_thread (Bind cb [0; 0; 0; 0])
    end.

(** [void ScanFilterClear(int filter_index, FilterConfigCallback cb)] *)
Definition ScanFilterClear (filter_index : Z) (cb : Callback) : Shim unit :=
    LOG INFO "ScanFilterClear in shim layer" [].

(** [void ScanFilterEnable(bool enable, EnableCallback cb)] *)
Definition ScanFilterEnable (enable : bool) (cb : Callback) : Shim unit :=
    LOG INFO "ScanFilterEnable in shim layer" [];;
    GetScanning (Scanning_ScanFilterEnable enable);;
    let action := if enable then 1 else 0 in
    do_in_jni_thread (Bind cb [action; 0]).

(** [void SetScanParameters(int scan_phy, std::vector<uint32_t>
      scan_interval, std::vector<uint32_t> scan_window, Callback cb)];
      [scan_interval[0]] and [scan_window[0]] of an empty vector have no
      defined value. *)
Definition SetScanParameters (scan_phy : Z) (scan_interval scan_window : list Z)
      (cb : Callback) : Shim unit :=
    LOG INFO "SetScanParameters in shim layer" [];;
    let scan_type := 1 in
    match scan_interval !! 0%nat, scan_window !! 0%nat with
    | Some interval, Some window =>
        GetScanning (Scanning_SetScanParameters scan_type interval window);;
        do_in_jni_thread (Bind cb [0])
    | _, _ => undefined
    end.

(** [void RegisterCallbacks(ScanningCallbacks* callbacks)] *)
Definition RegisterCallbacks (callbacks : option ScanningCallbacks)
    : Shim unit :=
    LOG INFO "RegisterCallbacks in shim layer" [];;
    set_scanning_callbacks_ callbacks.

(** [void OnScannerRegistered(const bluetooth::hci::Uuid app_uuid,
      bluetooth::hci::ScannerId scanner_id, ScanningStatus status)] *)
Definition OnScannerRegistered (app_uuid : hci_uuid_t) (scanner_id status : Z)
    : Shim unit :=
    let uuid := Uuid.From128BitBE (hci.Uuid.To128BitBE app_uuid) in
    callbacks ← get_scanning_callbacks_;
    do_in_jni_thread
      (Bind_OnScannerRegistered callbacks uuid scanner_id status).

(** [void OnScanResult(uint16_t event_type, uint8_t address_type,
      bluetooth::hci::Address address, uint8_t primary_phy,
      uint8_t secondary_phy, uint8_t advertising_sid, int8_t tx_power,
      int8_t rssi, uint16_t periodic_advertising_interval,
      std::vector<uint8_t> advertising_data)] *)
Definition OnScanResult (event_type address_type : Z)
      (address : hci.Address.t)
      (primary_phy secondary_phy advertising_sid tx_power rssi
       periodic_advertising_interval : Z) (advertising_data : list byte)
    : Shim unit :=
    let raw_address :=
      (RawAddress.FromString (hci.Address.ToString address)
         default_RawAddress).2 in
    callbacks ← get_scanning_callbacks_;
    do_in_jni_thread
      (BindOnce_OnScanResult callbacks event_type address_type raw_address
         primary_phy secondary_phy advertising_sid tx_power rssi
         periodic_advertising_interval advertising_data).

(** *** Reading a trace *)

(** The calls made on the lower engine, oldest first. *)
Definition calls (tr : list event) : list ScanningCall :=
    omap (M := list) (λ e : event, match e with Call c => Some c | _ => None end) tr.

(** The closures posted to the JNI thread, oldest first. *)
Definition posts (tr : list event) : list Closure :=
    omap (M := list) (λ e : event, match e with Post c => Some c | _ => None end) tr.

(** What a method adds to the trace when run on [s]. *)
Definition added {A : Type} (m : Shim A) (s : State) : option (list event) :=
    match m s with
    | Some (_, s') => Some (drop (length (trace s)) (trace s'))
    | None => None
    end.

(** *** The methods with no work in them *)

(** [BatchscanConfigStorage], [BatchscanEnable], [BatchscanDisable],
    [BatchscanReadReports], [StartSync] and [StopSync]: a log line. *)
Definition BatchscanConfigStorage (client_if batch_scan_full_max
    batch_scan_trunc_max batch_scan_notify_threshold : Z) (cb : Callback)
  : Shim unit :=
  LOG INFO "BatchscanConfigStorage in shim layer" [].
Definition BatchscanEnable (scan_mode scan_interval scan_window addr_type
    discard_rule : Z) (cb : Callback) : Shim unit :=
  LOG INFO "BatchscanEnable in shim layer" [].
Definition BatchscanDisable (cb : Callback) : Shim unit :=
  LOG INFO "BatchscanDisable in shim layer" [].
Definition BatchscanReadReports (client_if scan_mode : Z) : Shim unit :=
  LOG INFO "BatchscanReadReports in shim layer" [].
Definition StartSync (sid : Z) (address : RawAddress.t) (skip timeout : Z)
    (start_cb report_cb lost_cb : Callback) : Shim unit :=
  LOG INFO "StartSync in shim layer" [].
Definition StopSync (handle : Z) : Shim unit :=
  LOG INFO "StopSync in shim layer" [].

(** [OnTrackAdvFoundLost], [OnBatchScanReports], [OnTimeout],
    [OnFilterEnable], [OnFilterParamSetup], [OnFilterConfigCallback],
    [CancelCreateSync], [TransferSync], [TransferSetInfo] and
    [SyncTxParameters]: an empty body. *)
Definition OnTrackAdvFoundLost : Shim unit := mret tt.
Definition OnBatchScanReports (client_if status report_format num_records : Z)
    (data : list byte) : Shim unit := mret tt.
Definition OnTimeout : Shim unit := mret tt.
Definition OnFilterEnable (enable status : Z) : Shim unit := mret tt.
Definition OnFilterParamSetup (available_spaces action status : Z)
  : Shim unit := mret tt.
Definition OnFilterConfigCallback (filter_type available_spaces action
    status : Z) : Shim unit := mret tt.
Definition CancelCreateSync (sid : Z) (address : RawAddress.t) : Shim unit :=
  mret tt.
Definition TransferSync (address : RawAddress.t) (service_data
    sync_handle : Z) (cb : Callback) : Shim unit := mret tt.
Definition TransferSetInfo (address : RawAddress.t) (service_data
    adv_handle : Z) (cb : Callback) : Shim unit := mret tt.
Definition SyncTxParameters (address : RawAddress.t) (mode skip timeout : Z)
    (cb : Callback) : Shim unit := mret tt.

(** *** Calls on the shim, as data *)

(** One call of a method of [BleScannerInterfaceImpl], with its
    arguments. *)
Inductive Method : Type :=
| M_Init
| M_RegisterScanner (uuid : uuid_t) (cb : Callback)
| M_Unregister (scanner_id : Z)
| M_Scan (start : bool)
| M_ScanFilterParamSetup (client_if action filter_index : Z)
    (filt_param : option btgatt_filt_param_setup_t.t) (cb : Callback)
| M_ScanFilterAdd (filter_index : Z) (filters : list Apcf) (cb : Callback)
| M_ScanFilterClear (filter_index : Z) (cb : Callback)
| M_ScanFilterEnable (enable : bool) (cb : Callback)
| M_SetScanParameters (scan_phy : Z) (scan_interval scan_window : list Z)
    (cb : Callback)
| M_BatchscanConfigStorage (client_if batch_scan_full_max
    batch_scan_trunc_max batch_scan_notify_threshold : Z) (cb : Callback)
| M_BatchscanEnable (scan_mode scan_interval scan_window addr_type
    discard_rule : Z) (cb : Callback)
| M_BatchscanDisable (cb : Callback)
| M_BatchscanReadReports (client_if scan_mode : Z)
| M_StartSync (sid : Z) (address : RawAddress.t) (skip timeout : Z)
    (start_cb report_cb lost_cb : Callback)
| M_StopSync (handle : Z)
| M_RegisterCallbacks (callbacks : option ScanningCallbacks)
| M_OnScannerRegistered (app_uuid : hci_uuid_t) (scanner_id status : Z)
| M_OnScanResult (event_type address_type : Z) (address : hci.Address.t)
    (primary_phy secondary_phy advertising_sid tx_power rssi
     periodic_advertising_interval : Z) (advertising_data : list byte)
| M_OnTrackAdvFoundLost
| M_OnBatchScanReports (client_if status report_format num_records : Z)
    (data : list byte)
| M_OnTimeout
| M_OnFilterEnable (enable status : Z)
| M_OnFilterParamSetup (available_spaces action status : Z)
| M_OnFilterConfigCallback (filter_type available_spaces action status : Z)
| M_CancelCreateSync (sid : Z) (address : RawAddress.t)
| M_TransferSync (address : RawAddress.t) (service_data sync_handle : Z)
    (cb : Callback)
| M_TransferSetInfo (address : RawAddress.t) (service_data adv_handle : Z)
    (cb : Callback)
| M_SyncTxParameters (address : RawAddress.t) (mode skip timeout : Z)
    (cb : Callback).

(** The method a call names, applied to the arguments it carries. *)
Definition invoke (m : Method) : Shim unit :=
  match m with
  | M_Init => Init
  | M_RegisterScanner uuid cb => RegisterScanner uuid cb
  | M_Unregister scanner_id => Unregister scanner_id
  | M_Scan start => Scan start
  | M_ScanFilterParamSetup client_if action filter_index filt_param cb =>
      ScanFilterParamSetup client_if action filter_index filt_param cb
  | M_ScanFilterAdd filter_index filters cb =>
      ScanFilterAdd filter_index filters cb
  | M_ScanFilterClear filter_index cb => ScanFilterClear filter_index cb
  | M_ScanFilterEnable enable cb => ScanFilterEnable enable cb
  | M_SetScanParameters scan_phy scan_interval scan_window cb =>
      SetScanParameters scan_phy scan_interval scan_window cb
  | M_BatchscanConfigStorage a b c d cb => BatchscanConfigStorage a b c d cb
  | M_BatchscanEnable a b c d e cb => BatchscanEnable a b c d e cb
  | M_BatchscanDisable cb => BatchscanDisable cb
  | M_BatchscanReadReports a b => BatchscanReadReports a b
  | M_StartSync sid address skip timeout start_cb report_cb lost_cb =>
      StartSync sid address skip timeout start_cb report_cb lost_cb
  | M_StopSync handle => StopSync handle
  | M_RegisterCallbacks callbacks => RegisterCallbacks callbacks
  | M_OnScannerRegistered app_uuid scanner_id status =>
      OnScannerRegistered app_uuid scanner_id status
  | M_OnScanResult event_type address_type address primary_phy secondary_phy
      advertising_sid tx_power rssi periodic_advertising_interval
      advertising_data =>
      OnScanResult event_type address_type address primary_phy secondary_phy
        advertising_sid tx_power rssi periodic_advertising_interval
        advertising_data
  | M_OnTrackAdvFoundLost => OnTrackAdvFoundLost
  | M_OnBatchScanReports a b c d data => OnBatchScanReports a b c d data
  | M_OnTimeout => OnTimeout
  | M_OnFilterEnable enable status => OnFilterEnable enable status
  | M_OnFilterParamSetup a b c => OnFilterParamSetup a b c
  | M_OnFilterConfigCallback a b c d => OnFilterConfigCallback a b c d
  | M_CancelCreateSync sid address => CancelCreateSync sid address
  | M_TransferSync address a b cb => TransferSync address a b cb
  | M_TransferSetInfo address a b cb => TransferSetInfo address a b cb
  | M_SyncTxParameters address a b c cb => SyncTxParameters address a b c cb
  end.

(** Calls made one after the other. *)
Fixpoint invoke_all (ms : list Method) : Shim unit :=
  match ms with
  | [] => mret tt
  | m :: rest => invoke m;; invoke_all rest
  end.

(** The calls that assign the member [scanning_callbacks_]. *)
Definition is_RegisterCallbacks (m : Method) : bool :=
  match m with
  | M_RegisterCallbacks _ => true
  | _ => false
  end.

(** The methods whose body is a log line or empty. *)
Definition is_stub (m : Method) : bool :=
  match m with
  | M_ScanFilterClear _ _
  | M_BatchscanConfigStorage _ _ _ _ _ | M_BatchscanEnable _ _ _ _ _ _
  | M_BatchscanDisable _ | M_BatchscanReadReports _ _
  | M_StartSync _ _ _ _ _ _ _ | M_StopSync _
  | M_OnTrackAdvFoundLost | M_OnBatchScanReports _ _ _ _ _ | M_OnTimeout
  | M_OnFilterEnable _ _ | M_OnFilterParamSetup _ _ _
  | M_OnFilterConfigCallback _ _ _ _
  | M_CancelCreateSync _ _ | M_TransferSync _ _ _ _
  | M_TransferSetInfo _ _ _ _ | M_SyncTxParameters _ _ _ _ _ => true
  | _ => false
  end.

(** *** The process-wide instance *)

(** [BleScannerInterfaceImpl* bt_le_scanner_instance = nullptr;]: the
    global pointer, [None] while null, and otherwise the object it points
    to.  [get_ble_scanner_instance()] returns the pointer, which is the
    global after the call. *)
Definition get_ble_scanner_instance (bt_le_scanner_instance : option State)
  : option State :=
  match bt_le_scanner_instance with
  | None => Some init
  | Some _ => bt_le_scanner_instance
  end.

(** [void bluetooth::shim::init_scanning_manager()]: [Init] through the
    global pointer; through a null pointer the call has no defined
    result. *)
Definition init_scanning_manager (bt_le_scanner_instance : option State)
  : option (option State) :=
  match bt_le_scanner_instance with
  | None => None
  | Some this =>
      match Init this with
      | Some (_, this') => Some (Some this')
      | None => None
      end
  end.

(** [runs m s a evs]: run on [s], the method [m] returns [a], leaves
    [scanning_callbacks_] as it was and adds exactly the events [evs] to
    the trace, in this order. *)
Definition runs {A : Type} (m : Shim A) (s : State) (a : A)
    (evs : list event) : Prop :=
  m s = Some (a, mkState (scanning_callbacks_ s) (trace s ++ evs)).

(** What [parse_filter_command] makes of one command of a batch, starting
    as [ScanFilterAdd] does from a value-initialized command: the
    translated command, or [None] when it returns [false]. *)
Definition translate (f : Apcf) : option Command :=
  match parse_filter_command command_init f init with
  | Some ((true, command), _) => Some command
  | _ => None
  end.

(** How often a closure bound to [cb] is among the events [evs]. *)
Definition is_bound_to (cb : Callback) (c : Closure) : bool :=
  match c with
  | Bind cb' _ => Z.eqb cb' cb
  | _ => false
  end.
Definition invocations (cb : Callback) (evs : list event) : nat :=
  length (List.filter (is_bound_to cb) (posts evs)).

(** The registration table as section 3 and 4.D.1 of the spec describe
    it, read off a trace: a scanner id is Registered from the moment
    [OnScannerRegistered] is posted for it with status 0 (Success) until an
    [Unregister] for it reaches the lower engine.  The shim itself keeps no
    such table. *)
Definition registered_step (ids : gset Z) (e : event) : gset Z :=
  match e with
  | Post (Bind_OnScannerRegistered _ _ scanner_id status) =>
      if decide (status = 0) then {[scanner_id]} ∪ ids else ids
  | Call (Scanning_Unregister scanner_id) => ids ∖ {[scanner_id]}
  | _ => ids
  end.
Definition registered (tr : list event) : gset Z :=
  foldl registered_step ∅ tr.

(** The address of [OnScanResult] by direct byte copy, the conversion the
    spec prefers (section 9). *)
Definition byte_copy (address : hci.Address.t) : RawAddress.t :=
  RawAddress.mk (hci.Address.address address).

End BleScannerInterfaceImpl.

Module AFP := hci.AdvertisingFilterParameter.
Module FPS := btgatt_filt_param_setup_t.
Module APCF := hci.AdvertisingPacketContentFilterCommand.

(** ** Test doubles *)

(** A [bluetooth::Uuid] that answers each method with what the test put
    in it, so that a command can be crafted with any shortest size. *)
Module StubUuid.
Record t : Type := mk {
  is_empty : bool;
  shortest_size : Z;
  as_16 : Z;
  as_32 : Z;
  as_128 : list byte;
}.

#[global] Instance ops : Uuid.Ops t := {|
  Uuid.IsEmpty := is_empty;
  Uuid.GetShortestRepresentationSize := shortest_size;
  Uuid.As16Bit := as_16;
  Uuid.As32Bit := as_32;
  Uuid.To128BitBE := as_128;
  Uuid.From128BitBE := λ bytes, mk false 16 0 0 bytes;
|}.

(** The empty UUID: sixteen zero bytes, which have no 16-bit and no
    32-bit form. *)
Definition kEmpty : t := mk true 16 0 0 (replicate 16 x00).

(** The 16-bit UUID [v], e.g. 0x180F. *)
Definition u16 (v : Z) : t := mk false 2 v v [].

(** The 32-bit UUID [v]. *)
Definition u32 (v : Z) : t := mk false 4 (v mod 65536) v [].

(** The 128-bit UUID with the bytes [b]. *)
Definition u128 (b : list byte) : t := mk false 16 0 0 b.

(** A crafted UUID whose shortest size is [n]. *)
Definition crafted (n : Z) : t := mk false n 0 0 [].
End StubUuid.

(** Modelled from the spec: section 3 has the lower engine's UUID as a sum
    type with the variants U16, U32 and U128 (16 bytes, big-endian) and an
    empty sentinel. *)
Module SumUuid.
Inductive t : Type :=
| Empty
| U16 (v : Z)
| U32 (v : Z)
| U128 (bytes : list byte).

#[global] Instance ops : hci.Uuid.Ops t := {|
  hci.Uuid.From16Bit := U16;
  hci.Uuid.From32Bit := U32;
  hci.Uuid.From128BitBE := U128;
  hci.Uuid.To128BitBE := λ u, match u with U128 b => b | _ => [] end;
  hci.Uuid.default := Empty;
|}.
End SumUuid.

(** A default-initialization that happens to leave zero in every byte. *)
#[global] Instance zero_defaults : Defaults := {|
  default_Address := hci.Address.mk (replicate 6 x00);
  default_RawAddress := RawAddress.mk (replicate 6 x00);
  default_AdvertisingFilterParameter :=
    hci.AdvertisingFilterParameter.mk 0 0 0 0 0 0 0 0 0 0;
|}.


(** A filter command with everything but the two UUIDs left blank. *)
Definition apcf_with (type : Z) (uuid uuid_mask : StubUuid.t)
  : ApcfCommand.t StubUuid.t :=
  ApcfCommand.mk type (RawAddress.mk (replicate 6 x00)) 0 uuid uuid_mask
    [] 0 0 [] [].

(** What a blank command translates to, but for the two UUIDs. *)
Definition command_with (filter_type : Z) (uuid uuid_mask : SumUuid.t)
  : hci.AdvertisingPacketContentFilterCommand.t SumUuid.t :=
  hci.AdvertisingPacketContentFilterCommand.mk filter_type
    (hci.Address.mk (replicate 6 x00)) 0 uuid uuid_mask [] 0 0 [] [].

(** The shim over the two test doubles, before anything has happened. *)
Definition init0 : @State StubUuid.t SumUuid.t := init.

(** Scenario S2 of the spec: one ServiceUUID filter (type code 3 here)
    with the 16-bit UUID 0x180F under the mask 0xFFFF. *)
Definition apcf_S2 : ApcfCommand.t StubUuid.t :=
  apcf_with 3 (StubUuid.u16 0x180F) (StubUuid.u16 0xFFFF).

(** Scenario S3: a command crafted with the shortest size 8. *)
Definition apcf_S3 : ApcfCommand.t StubUuid.t :=
  apcf_with 3 (StubUuid.crafted 8) StubUuid.kEmpty.

(** A command with a mask of sixteen 0xFF bytes and no value UUID. *)
Definition apcf_mask_only : ApcfCommand.t StubUuid.t :=
  apcf_with 3 StubUuid.kEmpty (StubUuid.u128 (replicate 16 xff)).

(** Scenario S4: the caller's struct with delivery mode 1 (OnFound). *)
Definition filt_param_S4 : FPS.t :=
  {| FPS.feat_seln := 0x3F; FPS.list_logic_type := 0;
     FPS.filt_logic_type := 0; FPS.rssi_high_thres := 0;
     FPS.rssi_low_thres := -90; FPS.dely_mode := 1;
     FPS.found_timeout := 0xABCD; FPS.lost_timeout := 0x1234;
     FPS.found_timeout_cnt := 2; FPS.num_of_tracking_entries := 8 |}.

(** Scenario S5: the same struct with delivery mode 0 (Immediate). *)
Definition filt_param_S5 : FPS.t :=
  {| FPS.feat_seln := 0x3F; FPS.list_logic_type := 0;
     FPS.filt_logic_type := 0; FPS.rssi_high_thres := 0;
     FPS.rssi_low_thres := -90; FPS.dely_mode := 0;
     FPS.found_timeout := 0xABCD; FPS.lost_timeout := 0x1234;
     FPS.found_timeout_cnt := 2; FPS.num_of_tracking_entries := 8 |}.

Example BDADDR_TO_STREAM_ex :
  Stream.BDADDR_TO_STREAM [x00; x00; x00; x00; x00; x00; x00; x00] 1
    (RawAddress.mk [xaa; xbb; xcc; xdd; xee; xff])
  = Some ([x00; xff; xee; xdd; xcc; xbb; xaa; x00], 7%nat).
Proof. reflexivity. Qed.

Example STREAM_TO_BDADDR_ex :
  Stream.STREAM_TO_BDADDR (RawAddress.mk [x00; x00; x00; x00; x00; x00])
    [x00; xff; xee; xdd; xcc; xbb; xaa; x00] 1
  = Some (RawAddress.mk [xaa; xbb; xcc; xdd; xee; xff], 7%nat).
Proof. reflexivity. Qed.

(** ** The stream codec: BDADDR_TO_STREAM and STREAM_TO_BDADDR *)

Section StreamFacts.
Import Stream.

Lemma store_Some (buf : list byte) (p : nat) (v : byte) :
  (p < length buf)%nat → store buf p v = Some (<[p := v]> buf).
Proof. intros Hp. unfold store. by rewrite decide_True. Qed.

Lemma poke_Some (arr : list byte) (i : nat) (v : byte) :
  (i < length arr)%nat → poke arr (Z.of_nat (S i) - 1) v = Some (<[i := v]> arr).
Proof.
  intros Hi. unfold poke. rewrite decide_True by lia.
  by replace (Z.to_nat (Z.of_nat (S i) - 1)) with i by lia.
Qed.

(** [n] iterations that end the loop write the first [n] bytes of the
    address, last one first. *)
Lemma BDADDR_TO_STREAM_loop_spec (n : nat) :
  ∀ (ijk : nat) (a : RawAddress.t) (buf : list byte) (p : nat),
    (ijk + n = BD_ADDR_LEN)%nat → RawAddress.wf a →
    (p + n ≤ length buf)%nat →
    BDADDR_TO_STREAM_loop n ijk a buf p
    = Some (take p buf ++ reverse (take n (RawAddress.address a))
              ++ drop (p + n) buf, (p + n)%nat).
Proof.
  induction n as [|n IH]; intros ijk a buf p Hijk Hwf Hp;
    cbn [BDADDR_TO_STREAM_loop].
  - rewrite Nat.add_0_r. simpl. by rewrite take_drop.
  - replace (BD_ADDR_LEN - 1 - ijk)%nat with n by lia.
    destruct (lookup_lt_is_Some_2 (RawAddress.address a) n) as [v Hv];
      [unfold RawAddress.wf in Hwf; lia|].
    rewrite Hv. cbn [mbind option_bind].
    rewrite store_Some by lia. cbn [mbind option_bind].
    rewrite (IH (S ijk)); [|lia|done|rewrite length_insert; lia].
    f_equal. f_equal; [|lia].
    rewrite (take_S_r _ _ _ Hv), reverse_snoc.
    rewrite (take_S_r (<[p:=v]> buf) p v)
      by (apply list_lookup_insert_eq; lia).
    rewrite take_insert_ge by lia.
    rewrite drop_insert_lt by lia.
    rewrite <- app_assoc. simpl.
    by replace (S (p + n)) with (p + S n)%nat by lia.
Qed.

(** [n] iterations that start with [pbda] at [a.address + n - 1] fill the
    first [n] bytes of the address with the next [n] bytes of the stream,
    the first of them last. *)
Lemma STREAM_TO_BDADDR_loop_spec (n : nat) :
  ∀ (arr buf : list byte) (p : nat),
    (n ≤ length arr)%nat → (p + n ≤ length buf)%nat →
    STREAM_TO_BDADDR_loop n arr (Z.of_nat n - 1) buf p
    = Some (reverse (take n (drop p buf)) ++ drop n arr, (p + n)%nat).
Proof.
  induction n as [|n IH]; intros arr buf p Hn Hp.
  - simpl. by rewrite Nat.add_0_r.
  - cbn [STREAM_TO_BDADDR_loop].
    destruct (lookup_lt_is_Some_2 buf p) as [v Hv]; [lia|].
    rewrite Hv. cbn [mbind option_bind].
    rewrite poke_Some by lia. cbn [mbind option_bind].
    replace (Z.of_nat (S n) - 1 - 1) with (Z.of_nat n - 1) by lia.
    rewrite IH; [|rewrite length_insert; lia|lia].
    f_equal. f_equal; [|lia].
    rewrite (drop_S buf v p Hv). cbn [take]. rewrite reverse_cons.
    rewrite <- app_assoc. f_equal. simpl.
    rewrite drop_insert_ge by lia. rewrite Nat.sub_diag.
    destruct (lookup_lt_is_Some_2 arr n) as [w Hw]; [lia|].
    by rewrite (drop_S arr w n Hw).
Qed.

End StreamFacts.

(** C9.  For every six-byte address [a] and every stream with six bytes
    of room at the cursor [p], [BDADDR_TO_STREAM] returns: it stores the
    bytes of [a] at [p] in reversed order ([a.address[5]] first), leaves the
    rest of the buffer as it was and advances the cursor by 6; and
    [STREAM_TO_BDADDR], reading the stream so written from [p] into any
    six-byte address object, returns the address [a] itself, its cursor
    advanced by 6 as well. *)
Theorem BDADDR_stream_roundtrip (a a0 : RawAddress.t) (buf : list byte)
    (p : nat) :
  RawAddress.wf a → RawAddress.wf a0 →
  (p + BD_ADDR_LEN ≤ length buf)%nat →
  ∃ buf' : list byte,
    Stream.BDADDR_TO_STREAM buf p a = Some (buf', (p + 6)%nat)
    ∧ buf' = take p buf ++ reverse (RawAddress.address a)
               ++ drop (p + 6) buf
    ∧ Stream.STREAM_TO_BDADDR a0 buf' p = Some (a, (p + 6)%nat).
Proof.
  intros Ha Ha0 Hp.
  exists (take p buf ++ reverse (RawAddress.address a) ++ drop (p + 6) buf).
  split; [|split; [reflexivity|]].
  - unfold Stream.BDADDR_TO_STREAM.
    rewrite (BDADDR_TO_STREAM_loop_spec BD_ADDR_LEN 0 a buf p) by done.
    unfold RawAddress.wf in Ha. by rewrite (take_ge (RawAddress.address a)) by (rewrite Ha; done).
  - unfold Stream.STREAM_TO_BDADDR.
    unfold RawAddress.wf, BD_ADDR_LEN in *.
    assert (Hlen : length (take p buf) = p) by (rewrite length_take; lia).
    rewrite (STREAM_TO_BDADDR_loop_spec 6).
    + cbn [mbind option_bind]. f_equal. f_equal.
      destruct a as [l]. simpl in *. f_equal.
      rewrite <- Hlen at 1. rewrite drop_app_length.
      rewrite take_app_length' by (rewrite length_reverse; lia).
      rewrite reverse_involutive.
      rewrite drop_ge by lia. by rewrite app_nil_r.
    + lia.
    + rewrite !length_app, length_reverse, length_drop. lia.
Qed.

(** C9 at the address AA:BB:CC:DD:EE:FF, written at offset 1 of an
    eight-byte buffer. *)
Lemma BDADDR_stream_roundtrip_witness :
  ∃ buf' : list byte,
    Stream.BDADDR_TO_STREAM [x00; x00; x00; x00; x00; x00; x00; x00] 1
      (RawAddress.mk [xaa; xbb; xcc; xdd; xee; xff])
    = Some (buf', 7%nat)
    ∧ buf' = [x00; xff; xee; xdd; xcc; xbb; xaa; x00]
    ∧ Stream.STREAM_TO_BDADDR
        (RawAddress.mk [x00; x00; x00; x00; x00; x00]) buf' 1
      = Some (RawAddress.mk [xaa; xbb; xcc; xdd; xee; xff], 7%nat).
Proof.
  apply (BDADDR_stream_roundtrip
           (RawAddress.mk [xaa; xbb; xcc; xdd; xee; xff])
           (RawAddress.mk [x00; x00; x00; x00; x00; x00])
           [x00; x00; x00; x00; x00; x00; x00; x00] 1);
    [reflexivity | reflexivity | unfold BD_ADDR_LEN; simpl; lia].
Defined.

(** ** Addresses through their string form *)

Lemma parse_byte_emit (b : byte) :
  AddressString.parse_byte
    (AddressString.hex_digit (Byte.to_N b / 16))
    (AddressString.hex_digit (Byte.to_N b mod 16)) = Some b.
Proof. destruct b; reflexivity. Qed.

(** Parsing what was emitted for [n + 1] bytes gives the bytes back. *)
Lemma parse_emit (l : list byte) :
  ∀ n : nat, length l = S n →
    AddressString.parse (S n) (AddressString.emit l) = Some l.
Proof.
  induction l as [|b l IH]; intros n Hn; [done|].
  destruct l as [|b' l].
  - simpl in Hn. assert (n = O) as -> by lia.
    cbn [AddressString.emit AddressString.emit_byte AddressString.parse].
    rewrite parse_byte_emit. done.
  - destruct n as [|n]; [simpl in Hn; lia|].
    change (AddressString.emit (b :: b' :: l))
      with (AddressString.emit_byte b
              (String ":"%char (AddressString.emit (b' :: l)))).
    unfold AddressString.emit_byte.
    change (AddressString.parse (S (S n)) (String ?c1 (String ?c2 ?r)))
      with (AddressString.parse_byte c1 c2 ≫= λ x,
              match S n, r with
              | O, EmptyString => Some [x]
              | S _, String ":"%char r' =>
                  (x ::.) <$> AddressString.parse (S n) r'
              | _, _ => None
              end).
    rewrite parse_byte_emit. cbn [mbind option_bind].
    rewrite IH by (simpl in Hn |- *; lia). done.
Qed.

(** The conversion of [OnScanResult], on a six-byte address: the parse
    succeeds and gives the same six bytes. *)
Lemma RawAddress_of_Address_string (a : hci.Address.t) (to : RawAddress.t) :
  hci.Address.wf a →
  RawAddress.FromString (hci.Address.ToString a) to
  = (true, RawAddress.mk (hci.Address.address a)).
Proof.
  intros Ha. unfold RawAddress.FromString, hci.Address.ToString.
  unfold BD_ADDR_LEN. by rewrite parse_emit.
Qed.

(** The conversion of [parse_filter_command], the other way round. *)
Lemma Address_of_RawAddress_string (a : RawAddress.t) (to : hci.Address.t) :
  RawAddress.wf a →
  hci.Address.FromString (RawAddress.ToString a) to
  = (true, hci.Address.mk (RawAddress.address a)).
Proof.
  intros Ha. unfold hci.Address.FromString, RawAddress.ToString.
  unfold BD_ADDR_LEN. by rewrite parse_emit.
Qed.

Example ToString_ex :
  hci.Address.ToString (hci.Address.mk [xaa; xbb; xcc; xdd; xee; xff])
  = "AA:BB:CC:DD:EE:FF"%string.
Proof. reflexivity. Qed.

Example FromString_lowercase_ex :
  RawAddress.FromString "aa:bb:cc:dd:ee:ff" (RawAddress.mk [])
  = (true, RawAddress.mk [xaa; xbb; xcc; xdd; xee; xff]).
Proof. reflexivity. Qed.

Example FromString_short_ex :
  RawAddress.FromString "AA:BB:CC:DD:EE" (RawAddress.mk [])
  = (false, RawAddress.mk []).
Proof. reflexivity. Qed.

(** ** The shim *)

Ltac shim_run :=
  unfold runs, LOG, GetScanning, do_in_jni_thread, emit, mbind, Shim_bind,
    mret, Shim_ret; cbn; rewrite <- ?app_assoc; try reflexivity.

Section ShimFacts.
Context {uuid_t : Type} `{!Uuid.Ops uuid_t}.
Context {hci_uuid_t : Type} `{!hci.Uuid.Ops hci_uuid_t}.
Context `{!Defaults}.

Abbreviation Sh := (@Shim uuid_t hci_uuid_t).
Abbreviation St := (@State uuid_t hci_uuid_t).
Abbreviation Ev := (@event uuid_t hci_uuid_t).

Lemma runs_ret {A : Type} (a : A) (s : St) : runs (mret a : Sh A) s a [].
Proof. unfold runs. destruct s. simpl. by rewrite app_nil_r. Qed.

Lemma runs_emit (e : Ev) (s : St) : runs (emit e) s tt [e].
Proof. reflexivity. Qed.

Lemma runs_bind {A B : Type} (m : Sh A) (k : A → Sh B) (s : St)
    (a : A) (b : B) (e1 e2 : list Ev) :
  runs m s a e1 →
  runs (k a) (mkState (scanning_callbacks_ s) (trace s ++ e1)) b e2 →
  runs (m ≫= k) s b (e1 ++ e2).
Proof.
  unfold runs. intros Hm Hk. unfold mbind, Shim_bind. rewrite Hm, Hk.
  simpl. by rewrite app_assoc.
Qed.

(** A run is a function of the method and the state. *)
Lemma runs_inj {A : Type} (m : Sh A) (s : St) (a a' : A)
    (evs evs' : list Ev) :
  runs m s a evs → runs m s a' evs' → a = a' ∧ evs = evs'.
Proof.
  unfold runs. intros Hr Hr'. rewrite Hr in Hr'. injection Hr' as -> Happ.
  split; [done|]. by apply app_inv_head in Happ.
Qed.


Lemma ScanFilterParamSetup_fields_aux (client_if action filter_index : Z)
    (fp : FPS.t) (cb : Callback) (s : St) :
  ∃ p, runs (ScanFilterParamSetup client_if action filter_index (Some fp) cb)
         s tt
         [ Log INFO "ScanFilterParamSetup in shim layer" [];
           Call (Scanning_ScanFilterParameterSetup action filter_index p);
           Post (Bind cb [0; 0; 0]) ].
Proof. eexists. unfold ScanFilterParamSetup. shim_run. Qed.


(** C6.  [ScanFilterParamSetup] with a non-null [filt_param]: the method
    returns, having called the lower engine once and posted the callback
    once with (0, 0, 0).  In the parameter record the lower engine gets,
    [feature_selection], [list_logic_type], [filter_logic_type],
    [rssi_high_thresh] and [delivery_mode] are the caller's, whatever the
    delivery mode; [onfound_timeout], [onfound_timeout_cnt],
    [rssi_low_thres], [onlost_timeout] and [num_of_tracking_entries] are the
    caller's when [dely_mode] is 1, and those of a default-initialized
    record, whatever the caller's struct holds, when it is not. *)
Theorem ScanFilterParamSetup_fields (client_if action filter_index : Z)
    (fp : FPS.t) (cb : Callback) (s : St) :
  runs (ScanFilterParamSetup client_if action filter_index (Some fp) cb) s tt
    [ Log INFO "ScanFilterParamSetup in shim layer" [];
      Call (Scanning_ScanFilterParameterSetup action filter_index
        (if decide (FPS.dely_mode fp = 1) then
           {| AFP.feature_selection := FPS.feat_seln fp;
              AFP.list_logic_type := FPS.list_logic_type fp;
              AFP.filter_logic_type := FPS.filt_logic_type fp;
              AFP.rssi_high_thresh := FPS.rssi_high_thres fp;
              AFP.delivery_mode := FPS.dely_mode fp;
              AFP.onfound_timeout := FPS.found_timeout fp;
              AFP.onfound_timeout_cnt := FPS.found_timeout_cnt fp;
              AFP.rssi_low_thres := FPS.rssi_low_thres fp;
              AFP.onlost_timeout := FPS.lost_timeout fp;
              AFP.num_of_tracking_entries := FPS.num_of_tracking_entries fp |}
         else
           {| AFP.feature_selection := FPS.feat_seln fp;
              AFP.list_logic_type := FPS.list_logic_type fp;
              AFP.filter_logic_type := FPS.filt_logic_type fp;
              AFP.rssi_high_thresh := FPS.rssi_high_thres fp;
              AFP.delivery_mode := FPS.dely_mode fp;
              AFP.onfound_timeout :=
                AFP.onfound_timeout default_AdvertisingFilterParameter;
              AFP.onfound_timeout_cnt :=
                AFP.onfound_timeout_cnt default_AdvertisingFilterParameter;
              AFP.rssi_low_thres :=
                AFP.rssi_low_thres default_AdvertisingFilterParameter;
              AFP.onlost_timeout :=
                AFP.onlost_timeout default_AdvertisingFilterParameter;
              AFP.num_of_tracking_entries :=
                AFP.num_of_tracking_entries
                  default_AdvertisingFilterParameter |}));
      Post (Bind cb [0; 0; 0]) ].
Proof. unfold ScanFilterParamSetup. case_decide; shim_run. Qed.

(** C4, as the code has it.  [SetScanParameters] does not compare the
    window with the interval: whatever the first elements of the two
    vectors are, also with [window > interval], the method returns, having
    called the lower engine's [SetScanParameters] with scan type 1 (active)
    and these two values, and posted the callback once with status 0. *)
Theorem SetScanParameters_no_validation (scan_phy interval window : Z)
    (scan_interval scan_window : list Z) (cb : Callback) (s : St) :
  runs (SetScanParameters scan_phy (interval :: scan_interval)
          (window :: scan_window) cb) s tt
    [ Log INFO "SetScanParameters in shim layer" [];
      Call (Scanning_SetScanParameters 1 interval window);
      Post (Bind cb [0]) ].
Proof. unfold SetScanParameters. shim_run. Qed.

(** C5, as the code has it.  [ScanFilterParamSetup], [ScanFilterEnable]
    and [SetScanParameters] (on vectors that have a first element) post the
    callback they are given exactly once; [RegisterScanner] and
    [ScanFilterClear] return without posting anything, their callback
    included; [Unregister] and [Scan], which take no callback, post
    nothing. *)
Theorem callbacks_per_operation (s : St) (cb : Callback) :
  (∀ uuid, ∃ evs, runs (RegisterScanner uuid cb) s tt evs ∧ posts evs = [])
  ∧ (∀ scanner_id, ∃ evs, runs (Unregister scanner_id) s tt evs
                          ∧ posts evs = [])
  ∧ (∀ start, ∃ evs, runs (Scan start) s tt evs ∧ posts evs = [])
  ∧ (∀ filter_index, ∃ evs, runs (ScanFilterClear filter_index cb) s tt evs
                            ∧ posts evs = [])
  ∧ (∀ client_if action filter_index filt_param,
       ∃ evs, runs (ScanFilterParamSetup client_if action filter_index
                      filt_param cb) s tt evs
              ∧ posts evs = [Bind cb [0; 0; 0]])
  ∧ (∀ enable, ∃ evs, runs (ScanFilterEnable enable cb) s tt evs
                      ∧ posts evs = [Bind cb [if enable then 1 else 0; 0]])
  ∧ (∀ scan_phy interval scan_interval window scan_window,
       ∃ evs, runs (SetScanParameters scan_phy (interval :: scan_interval)
                      (window :: scan_window) cb) s tt evs
              ∧ posts evs = [Bind cb [0]]).
Proof.
  repeat split; intros.
  - eexists. split; [unfold RegisterScanner; shim_run | reflexivity].
  - eexists. split; [unfold Unregister; shim_run | reflexivity].
  - eexists. split; [unfold Scan; shim_run | reflexivity].
  - eexists. split; [unfold ScanFilterClear; shim_run | reflexivity].
  - destruct filt_param as [fp|].
    + destruct (ScanFilterParamSetup_fields_aux client_if action
                  filter_index fp cb s) as [p Hp].
      eexists. split; [exact Hp | reflexivity].
    + eexists. split; [unfold ScanFilterParamSetup; shim_run | reflexivity].
  - eexists. split; [unfold ScanFilterEnable; shim_run | reflexivity].
  - eexists. split; [unfold SetScanParameters; shim_run | reflexivity].
Qed.

(** C7, as the code has it.  [Unregister] looks nothing up: for every
    scanner id, registered or not, the method returns, having logged the id
    and forwarded exactly one [Unregister] for it to the lower engine; it
    posts no callback. *)
Theorem Unregister_forwards (scanner_id : Z) (s : St) :
  runs (Unregister scanner_id) s tt
    [ Log INFO "Unregister in shim layer, scanner_id:" [scanner_id];
      Call (Scanning_Unregister scanner_id) ].
Proof. unfold Unregister. shim_run. Qed.

(** C8.  For every six-byte address the lower engine reports,
    [Address::ToString] followed by [RawAddress::FromString] succeeds and
    gives what a direct copy of the six bytes gives, whatever the
    destination held before; [OnScanResult] returns, having posted one
    [ScanningCallbacks::OnScanResult] closure that carries this address and
    every other argument as it was received. *)
Theorem OnScanResult_forwards (event_type address_type : Z)
    (address : hci.Address.t)
    (primary_phy secondary_phy advertising_sid tx_power rssi
     periodic_advertising_interval : Z) (advertising_data : list byte)
    (s : St) :
  hci.Address.wf address →
  (∀ to : RawAddress.t,
     RawAddress.FromString (hci.Address.ToString address) to
     = (true, byte_copy address))
  ∧ RawAddress.address (byte_copy address) = hci.Address.address address
  ∧ runs (OnScanResult event_type address_type address primary_phy
            secondary_phy advertising_sid tx_power rssi
            periodic_advertising_interval advertising_data) s tt
      [ Post (BindOnce_OnScanResult (scanning_callbacks_ s) event_type
                address_type (byte_copy address) primary_phy secondary_phy
                advertising_sid tx_power rssi periodic_advertising_interval
                advertising_data) ].
Proof.
  intros Hwf. split; [|split; [done|]].
  - intros to. by apply RawAddress_of_Address_string.
  - unfold OnScanResult. rewrite RawAddress_of_Address_string by done.
    unfold get_scanning_callbacks_. shim_run.
Qed.

(** *** The filter translator *)

Lemma calls_app (e1 e2 : list Ev) : calls (e1 ++ e2) = calls e1 ++ calls e2.
Proof. apply omap_app. Qed.

Lemma posts_app (e1 e2 : list Ev) : posts (e1 ++ e2) = posts e1 ++ posts e2.
Proof. apply omap_app. Qed.

(** [translate] tells how [parse_filter_command] runs on a fresh command in
    any state: a success adds nothing to the trace, a failure only log
    lines. *)
Lemma translate_runs (f : ApcfCommand.t uuid_t) (s : St) :
  match translate f with
  | Some c => runs (parse_filter_command command_init f) s (true, c) []
  | None =>
      ∃ c evs, runs (parse_filter_command command_init f) s (false, c) evs
               ∧ calls evs = [] ∧ posts evs = []
  end.
Proof.
  unfold translate, parse_filter_command. cbv zeta.
  destruct (Uuid.IsEmpty (ApcfCommand.uuid f));
    [|destruct (uuid_switch _ (ApcfCommand.uuid f))];
    cbn [fmap option_fmap option_map];
    try (destruct (Uuid.IsEmpty (ApcfCommand.uuid_mask f));
         [|destruct (uuid_switch _ (ApcfCommand.uuid_mask f))]);
    cbn [fmap option_fmap option_map];
    first [ apply runs_ret
          | do 2 eexists; split; [shim_run | split; reflexivity] ].
Qed.

(** The loop of [ScanFilterAdd], from any accumulator and state. *)
Lemma ScanFilterAdd_loop_runs (filters : list (ApcfCommand.t uuid_t)) :
  ∀ (new_filters : list (APCF.t hci_uuid_t)) (s : St),
    match mapM translate filters with
    | Some l =>
        runs (ScanFilterAdd_loop filters new_filters) s
          (Some (new_filters ++ l)) []
    | None =>
        ∃ evs, runs (ScanFilterAdd_loop filters new_filters) s None evs
               ∧ calls evs = [] ∧ posts evs = []
    end.
Proof.
  induction filters as [|f rest IH]; intros acc s.
  - cbn. rewrite app_nil_r. apply runs_ret.
  - cbn [mapM ScanFilterAdd_loop]. pose proof (translate_runs f s) as Hf.
    destruct (translate f) as [c|]; cbn [mbind option_bind].
    + specialize (IH (acc ++ [c])
                    (mkState (scanning_callbacks_ s) (trace s ++ []))).
      destruct (mapM translate rest) as [l|]; cbn [mbind option_bind mret option_ret].
      * change (@nil Ev) with (@nil Ev ++ []).
        eapply runs_bind; [exact Hf|]. cbn beta iota.
        rewrite <- app_assoc in IH. exact IH.
      * destruct IH as (evs & Hrun & Hc & Hp). exists ([] ++ evs).
        split; [|done]. eapply runs_bind; [exact Hf|]. exact Hrun.
    + destruct Hf as (c & evs & Hrun & Hc & Hp).
      exists (evs ++ [Log ERROR "invalid apcf command" []]).
      split; [|by rewrite calls_app, posts_app, Hc, Hp].
      eapply runs_bind; [exact Hrun|]. cbn beta iota. shim_run.
Qed.

(** C1.  [ScanFilterAdd] returns on every batch.  If some command of the
    batch fails translation, what it has done is neither a call on the
    lower engine nor a post of the callback (or of anything else).  If
    every command translates, it has called the lower engine's
    [ScanFilterAdd] once, with the filter index and the translated
    commands, all of them and in the order of the batch, and then posted
    the callback once with (0, 0, 0, 0). *)
Theorem ScanFilterAdd_all_or_nothing (filter_index : Z)
    (filters : list (ApcfCommand.t uuid_t)) (cb : Callback) (s : St) :
  ∃ evs,
    runs (ScanFilterAdd filter_index filters cb) s tt evs
    ∧ (Exists (λ f, translate f = None) filters →
       calls evs = [] ∧ posts evs = [])
    ∧ (∀ new_filters,
         Forall2 (λ f c, translate f = Some c) filters new_filters →
         evs = [ Log INFO "ScanFilterAdd in shim layer" [];
                 Call (Scanning_ScanFilterAdd filter_index new_filters);
                 Post (Bind cb [0; 0; 0; 0]) ]).
Proof.
  pose proof (ScanFilterAdd_loop_runs filters []
                (mkState (scanning_callbacks_ s)
                   (trace s ++ [Log INFO "ScanFilterAdd in shim layer" []])))
    as Hloop.
  destruct (mapM translate filters) as [l|] eqn:Hm.
  - exists ([Log INFO "ScanFilterAdd in shim layer" []]
            ++ ([] ++ [Call (Scanning_ScanFilterAdd filter_index l);
                       Post (Bind cb [0; 0; 0; 0])])).
    split; [|split].
    + unfold ScanFilterAdd. eapply runs_bind; [apply runs_emit|].
      eapply runs_bind; [exact Hloop|]. shim_run.
    + intros Hex. apply mapM_None_2 in Hex. congruence.
    + intros l' Hall. apply mapM_Some_2 in Hall.
      rewrite Hm in Hall. by injection Hall as ->.
  - destruct Hloop as (evs & Hrun & Hc & Hp).
    exists ([Log INFO "ScanFilterAdd in shim layer" []] ++ (evs ++ [])).
    split; [|split].
    + unfold ScanFilterAdd. eapply runs_bind; [apply runs_emit|].
      eapply runs_bind; [exact Hrun|]. apply runs_ret.
    + intros _. rewrite calls_app, posts_app, !app_nil_r, Hc, Hp. done.
    + intros l' Hall. apply mapM_Some_2 in Hall. congruence.
Qed.

Lemma uuid_switch_16 (u : uuid_t) :
  uuid_switch 2 u = Some (hci.Uuid.From16Bit (Uuid.As16Bit u)).
Proof. reflexivity. Qed.

Lemma uuid_switch_32 (u : uuid_t) :
  uuid_switch 4 u = Some (hci.Uuid.From32Bit (Uuid.As32Bit u)).
Proof. reflexivity. Qed.

Lemma uuid_switch_128 (u : uuid_t) :
  uuid_switch 16 u = Some (hci.Uuid.From128BitBE (Uuid.To128BitBE u)).
Proof. reflexivity. Qed.

Lemma uuid_switch_default (n : Z) (u : uuid_t) :
  n ≠ 2 → n ≠ 4 → n ≠ 16 → uuid_switch n u = None.
Proof.
  intros H2 H4 H16. unfold uuid_switch, Uuid.kNumBytes16, Uuid.kNumBytes32,
    Uuid.kNumBytes128.
  by rewrite !decide_False.
Qed.

(** [parse_filter_command] on a command with a non-empty UUID whose
    narrowed size selects a case of the switch. *)
Lemma parse_filter_command_uuid_ok (command : APCF.t hci_uuid_t)
    (f : ApcfCommand.t uuid_t) (s : St) (v : hci_uuid_t) :
  Uuid.IsEmpty (ApcfCommand.uuid f) = false →
  (∀ u, is_Some (uuid_switch
                   (uint8 (Uuid.GetShortestRepresentationSize
                             (ApcfCommand.uuid f))) u)) →
  uuid_switch (uint8 (Uuid.GetShortestRepresentationSize
                        (ApcfCommand.uuid f))) (ApcfCommand.uuid f) = Some v →
  ∃ c, runs (parse_filter_command command f) s (true, c) []
       ∧ APCF.uuid c = v.
Proof.
  intros He Hall Hv. unfold parse_filter_command. cbv zeta.
  rewrite He, Hv. cbn [fmap option_fmap option_map].
  destruct (Uuid.IsEmpty (ApcfCommand.uuid_mask f)).
  - eexists. split; [apply runs_ret | reflexivity].
  - destruct (Hall (ApcfCommand.uuid_mask f)) as [m ->].
    cbn [fmap option_fmap option_map].
    eexists. split; [apply runs_ret | reflexivity].
Qed.

(** C2.  A command with a non-empty UUID, whose shortest representation
    size [n] fits the [uint8_t] it is read into: with [n = 2] the
    translation succeeds and the command carries
    [From16Bit (uuid.As16Bit ())], with [n = 4] it carries
    [From32Bit (uuid.As32Bit ())], with [n = 16] it carries
    [From128BitBE (uuid.To128BitBE ())], the sixteen bytes as they are;
    with any other [n] the translation logs the illegal length and returns
    [false]. *)
Theorem parse_filter_command_uuid_width (command : APCF.t hci_uuid_t)
    (apcf_command : ApcfCommand.t uuid_t) (s : St) :
  let uuid := ApcfCommand.uuid apcf_command in
  let n := Uuid.GetShortestRepresentationSize uuid in
  Uuid.IsEmpty uuid = false →
  0 ≤ n < 256 →
  (n = 2 →
   ∃ c, runs (parse_filter_command command apcf_command) s (true, c) []
        ∧ APCF.uuid c = hci.Uuid.From16Bit (Uuid.As16Bit uuid))
  ∧ (n = 4 →
     ∃ c, runs (parse_filter_command command apcf_command) s (true, c) []
          ∧ APCF.uuid c = hci.Uuid.From32Bit (Uuid.As32Bit uuid))
  ∧ (n = 16 →
     ∃ c, runs (parse_filter_command command apcf_command) s (true, c) []
          ∧ APCF.uuid c = hci.Uuid.From128BitBE (Uuid.To128BitBE uuid))
  ∧ (n ≠ 2 → n ≠ 4 → n ≠ 16 →
     ∃ c, runs (parse_filter_command command apcf_command) s (false, c)
            [Log WARN "illegal UUID length %d" [n]]).
Proof.
  intros uuid n He Hn. subst uuid n.
  set (n := Uuid.GetShortestRepresentationSize
              (ApcfCommand.uuid apcf_command)) in *.
  assert (Hu8 : uint8 n = n) by (unfold uint8; by apply Z.mod_small).
  repeat split.
  - intros Hn2. apply parse_filter_command_uuid_ok; [done| |];
      fold n; rewrite Hu8, Hn2; [intros u; by eexists | apply uuid_switch_16].
  - intros Hn4. apply parse_filter_command_uuid_ok; [done| |];
      fold n; rewrite Hu8, Hn4; [intros u; by eexists | apply uuid_switch_32].
  - intros Hn16. apply parse_filter_command_uuid_ok; [done| |];
      fold n; rewrite Hu8, Hn16;
      [intros u; by eexists | apply uuid_switch_128].
  - intros Hn2 Hn4 Hn16. unfold parse_filter_command. cbv zeta.
    fold n. rewrite He, Hu8.
    rewrite uuid_switch_default by done.
    cbn [fmap option_fmap option_map].
    eexists. unfold uint16. rewrite Z.mod_small by lia. shim_run.
Qed.

(** C3, as the code has it.  A command whose [uuid_mask] is not empty and
    whose [uuid] is empty is not rejected for the missing value: the switch
    on the mask runs on the shortest representation size [n] of the
    (empty) value UUID.  With [n] fitting the [uint8_t] it is read into:
    for [n = 2] the translation succeeds with the mask as
    [From16Bit (uuid_mask.As16Bit ())], for [n = 4] as
    [From32Bit (uuid_mask.As32Bit ())], for [n = 16] as
    [From128BitBE (uuid_mask.To128BitBE ())], the value UUID of the command
    staying what it was; for any other [n] it logs the illegal length and
    returns [false]. *)
Theorem parse_filter_command_mask_only (command : APCF.t hci_uuid_t)
    (apcf_command : ApcfCommand.t uuid_t) (s : St) :
  let uuid := ApcfCommand.uuid apcf_command in
  let uuid_mask := ApcfCommand.uuid_mask apcf_command in
  let n := Uuid.GetShortestRepresentationSize uuid in
  Uuid.IsEmpty uuid_mask = false →
  Uuid.IsEmpty uuid = true →
  0 ≤ n < 256 →
  (n = 2 →
   ∃ c, runs (parse_filter_command command apcf_command) s (true, c) []
        ∧ APCF.uuid_mask c = hci.Uuid.From16Bit (Uuid.As16Bit uuid_mask)
        ∧ APCF.uuid c = APCF.uuid command)
  ∧ (n = 4 →
     ∃ c, runs (parse_filter_command command apcf_command) s (true, c) []
          ∧ APCF.uuid_mask c = hci.Uuid.From32Bit (Uuid.As32Bit uuid_mask)
          ∧ APCF.uuid c = APCF.uuid command)
  ∧ (n = 16 →
     ∃ c, runs (parse_filter_command command apcf_command) s (true, c) []
          ∧ APCF.uuid_mask c
            = hci.Uuid.From128BitBE (Uuid.To128BitBE uuid_mask)
          ∧ APCF.uuid c = APCF.uuid command)
  ∧ (n ≠ 2 → n ≠ 4 → n ≠ 16 →
     ∃ c, runs (parse_filter_command command apcf_command) s (false, c)
            [Log WARN "illegal UUID length %d" [n]]).
Proof.
  intros uuid uuid_mask n Hm He Hn. subst uuid uuid_mask n.
  set (n := Uuid.GetShortestRepresentationSize
              (ApcfCommand.uuid apcf_command)) in *.
  assert (Hu8 : uint8 n = n) by (unfold uint8; by apply Z.mod_small).
  repeat split; intros;
    unfold parse_filter_command; cbv zeta; fold n; rewrite He, Hm, Hu8.
  - match goal with Hn2 : n = 2 |- _ => rewrite Hn2 end.
    rewrite uuid_switch_16. cbn [fmap option_fmap option_map].
    eexists. split; [apply runs_ret | split; reflexivity].
  - match goal with Hn4 : n = 4 |- _ => rewrite Hn4 end.
    rewrite uuid_switch_32. cbn [fmap option_fmap option_map].
    eexists. split; [apply runs_ret | split; reflexivity].
  - match goal with Hn16 : n = 16 |- _ => rewrite Hn16 end.
    rewrite uuid_switch_128. cbn [fmap option_fmap option_map].
    eexists. split; [apply runs_ret | split; reflexivity].
  - rewrite uuid_switch_default by done.
    cbn [fmap option_fmap option_map].
    eexists. unfold uint16. rewrite Z.mod_small by lia. shim_run.
Qed.

End ShimFacts.

(** ** The scenarios of the spec, run *)

Example S2_filter_add :
  runs (ScanFilterAdd 0 [apcf_S2] 5) init0 tt
    [ Log INFO "ScanFilterAdd in shim layer" [];
      Call (Scanning_ScanFilterAdd 0
              [command_with 3 (SumUuid.U16 0x180F) (SumUuid.U16 0xFFFF)]);
      Post (Bind 5 [0; 0; 0; 0]) ].
Proof. reflexivity. Qed.

Example S3_illegal_width :
  runs (ScanFilterAdd 0 [apcf_S3] 5) init0 tt
    [ Log INFO "ScanFilterAdd in shim layer" [];
      Log WARN "illegal UUID length %d" [8];
      Log ERROR "invalid apcf command" [] ].
Proof. reflexivity. Qed.

Example illegal_widths_rejected :
  Forall (λ n, translate (hci_uuid_t := SumUuid.t)
                 (apcf_with 3 (StubUuid.crafted n) StubUuid.kEmpty) = None)
    [1; 3; 5; 8; 15; 17].
Proof. repeat constructor. Qed.

(** The size is read into a [uint8_t]: a size beyond a byte would be taken
    modulo 256.  No UUID has one; its longest form has 16 bytes. *)
Example size_is_narrowed :
  translate (apcf_with 3 (StubUuid.crafted 258) StubUuid.kEmpty)
  = Some (command_with 3 (SumUuid.U16 0) SumUuid.Empty).
Proof. reflexivity. Qed.

Example S4_on_found :
  runs (ScanFilterParamSetup 0 0 1 (Some filt_param_S4) 5) init0 tt
    [ Log INFO "ScanFilterParamSetup in shim layer" [];
      Call (Scanning_ScanFilterParameterSetup 0 1
              (AFP.mk 0x3F 0 0 0 1 0xABCD 2 (-90) 0x1234 8));
      Post (Bind 5 [0; 0; 0]) ].
Proof. reflexivity. Qed.

Example S5_immediate :
  runs (ScanFilterParamSetup 0 0 1 (Some filt_param_S5) 5) init0 tt
    [ Log INFO "ScanFilterParamSetup in shim layer" [];
      Call (Scanning_ScanFilterParameterSetup 0 1
              (AFP.mk 0x3F 0 0 0 0 0 0 0 0 0));
      Post (Bind 5 [0; 0; 0]) ].
Proof. reflexivity. Qed.

(** ** The theorems at concrete inputs *)

(** C1 at two batches: S2 followed by S3, which is aborted, and S2 alone,
    which is submitted. *)
Lemma ScanFilterAdd_all_or_nothing_witness :
  (∃ evs, runs (ScanFilterAdd 0 [apcf_S2; apcf_S3] 5) init0 tt evs
          ∧ calls evs = [] ∧ posts evs = [])
  ∧ (∃ evs, runs (ScanFilterAdd 0 [apcf_S2] 5) init0 tt evs
            ∧ evs = [ Log INFO "ScanFilterAdd in shim layer" [];
                      Call (Scanning_ScanFilterAdd 0
                              [command_with 3 (SumUuid.U16 0x180F)
                                 (SumUuid.U16 0xFFFF)]);
                      Post (Bind 5 [0; 0; 0; 0]) ]).
Proof.
  split.
  - destruct (ScanFilterAdd_all_or_nothing 0 [apcf_S2; apcf_S3] 5 init0)
      as (evs & Hrun & Hfail & _).
    exists evs. split; [exact Hrun|]. apply Hfail.
    apply Exists_cons_tl, Exists_cons_hd. reflexivity.
  - destruct (ScanFilterAdd_all_or_nothing 0 [apcf_S2] 5 init0)
      as (evs & Hrun & _ & Hok).
    exists evs. split; [exact Hrun|]. apply Hok.
    constructor; [reflexivity | constructor].
Defined.

(** C2 at the 16-bit UUID 0x180F and at a UUID crafted with size 8. *)
Lemma parse_filter_command_uuid_width_witness :
  (∃ c, runs (parse_filter_command command_init apcf_S2) init0 (true, c) []
        ∧ APCF.uuid c = SumUuid.U16 0x180F)
  ∧ (∃ c, runs (parse_filter_command command_init apcf_S3) init0 (false, c)
            [Log WARN "illegal UUID length %d" [8]]).
Proof.
  split.
  - pose proof (parse_filter_command_uuid_width command_init apcf_S2 init0)
      as Hw.
    cbv zeta in Hw. destruct Hw as (H16 & _); [reflexivity | cbn; lia |].
    apply H16. reflexivity.
  - pose proof (parse_filter_command_uuid_width command_init apcf_S3 init0)
      as Hw.
    cbv zeta in Hw.
    destruct Hw as (_ & _ & _ & Hbad); [reflexivity | cbn; lia |].
    apply Hbad; cbn; lia.
Defined.

(** C3, as the code has it, at a mask of sixteen 0xFF bytes with no value
    UUID. *)
Lemma parse_filter_command_mask_only_witness :
  ∃ c, runs (parse_filter_command command_init apcf_mask_only) init0
         (true, c) []
       ∧ APCF.uuid_mask c = SumUuid.U128 (replicate 16 xff)
       ∧ APCF.uuid c = SumUuid.Empty.
Proof.
  pose proof (parse_filter_command_mask_only command_init apcf_mask_only
                init0) as Hw.
  cbv zeta in Hw.
  destruct Hw as (_ & _ & H128 & _); [reflexivity | reflexivity | cbn; lia |].
  apply H128. reflexivity.
Defined.

(** C3 fails on the code: the command with a mask and no value UUID
    translates, and its batch is submitted and answered. *)
Lemma mask_without_value_accepted :
  Uuid.IsEmpty (ApcfCommand.uuid_mask apcf_mask_only) = false
  ∧ Uuid.IsEmpty (ApcfCommand.uuid apcf_mask_only) = true
  ∧ runs (parse_filter_command command_init apcf_mask_only) init0
      (true, command_with 3 SumUuid.Empty
               (SumUuid.U128 (replicate 16 xff))) []
  ∧ runs (ScanFilterAdd 0 [apcf_mask_only] 5) init0 tt
      [ Log INFO "ScanFilterAdd in shim layer" [];
        Call (Scanning_ScanFilterAdd 0
                [command_with 3 SumUuid.Empty
                   (SumUuid.U128 (replicate 16 xff))]);
        Post (Bind 5 [0; 0; 0; 0]) ].
Proof. repeat split. Qed.

(** C4 fails on the code: with the window (32) above the interval (16)
    the lower engine is called all the same and the callback is posted with
    status 0; no closure with status 2 is posted. *)
Lemma SetScanParameters_window_above_interval :
  16 < 32
  ∧ ∃ evs, runs (SetScanParameters 1 [16] [32] 5) init0 tt evs
           ∧ evs = [ Log INFO "SetScanParameters in shim layer" [];
                     Call (Scanning_SetScanParameters 1 16 32);
                     Post (Bind 5 [0]) ]
           ∧ posts evs = [Bind 5 [0]].
Proof.
  split; [done|]. eexists. split; [|split; [reflexivity|]]; reflexivity.
Qed.

(** C5 fails on the code: [ScanFilterClear] returns after its log line,
    and [RegisterScanner] after forwarding the registration; the callback
    handed to either is not among what they post. *)
Lemma ScanFilterClear_never_calls_back :
  (∃ evs, runs (ScanFilterClear 0 5) init0 tt evs
          ∧ evs = [Log INFO "ScanFilterClear in shim layer" []]
          ∧ invocations 5 evs = 0%nat)
  ∧ (∃ evs, runs (RegisterScanner (StubUuid.u16 1) 5) init0 tt evs
            ∧ evs = [ Log INFO "RegisterScanner in shim layer" [];
                      Call (Scanning_RegisterScanner (SumUuid.U128 [])) ]
            ∧ invocations 5 evs = 0%nat).
Proof. split; eexists; (split; [|split; [reflexivity|]]; reflexivity). Qed.

(** C7 fails on the code: in a shim where no scanner was ever registered,
    [Unregister 7] reaches the lower engine. *)
Lemma Unregister_unknown_id_forwarded :
  (7 ∉ registered (trace init0))
  ∧ ∃ evs, runs (Unregister 7) init0 tt evs
           ∧ evs = [ Log INFO "Unregister in shim layer, scanner_id:" [7];
                     Call (Scanning_Unregister 7) ]
           ∧ calls evs = [Scanning_Unregister 7].
Proof.
  split; [set_solver|]. eexists. split; [|split; [reflexivity|]]; reflexivity.
Qed.


(** C8 at the scan result of scenario S1, address AA:BB:CC:DD:EE:FF. *)
Lemma OnScanResult_forwards_witness :
  RawAddress.FromString
    (hci.Address.ToString (hci.Address.mk [xaa; xbb; xcc; xdd; xee; xff]))
    default_RawAddress
  = (true, RawAddress.mk [xaa; xbb; xcc; xdd; xee; xff])
  ∧ runs (OnScanResult 0x13 0
            (hci.Address.mk [xaa; xbb; xcc; xdd; xee; xff]) 1 0 0 0 (-60) 0
            [x02; x01; x06]) init0 tt
      [ Post (BindOnce_OnScanResult None 0x13 0
                (RawAddress.mk [xaa; xbb; xcc; xdd; xee; xff]) 1 0 0 0 (-60)
                0 [x02; x01; x06]) ].
Proof.
  destruct (OnScanResult_forwards 0x13 0
              (hci.Address.mk [xaa; xbb; xcc; xdd; xee; xff]) 1 0 0 0 (-60) 0
              [x02; x01; x06] init0) as (Hconv & _ & Hrun); [reflexivity|].
  split; [apply Hconv | exact Hrun].
Defined.

(** ** Integers in a stream *)

Section StreamIntegerFacts.
Import Stream.

Lemma of_to_uint8 (x : Z) : of_uint8 (to_uint8 x) = x mod 256.
Proof.
  unfold of_uint8, to_uint8.
  assert (Hx : 0 ≤ x mod 256 < 256) by (apply Z.mod_pos_bound; lia).
  destruct (Byte.of_N (Z.to_N (x mod 256))) as [b|] eqn:Hb.
  - apply Byte.to_of_N in Hb. simpl. rewrite Hb. lia.
  - apply Byte.of_N_None_iff in Hb. lia.
Qed.

Lemma to_of_uint8 (b : byte) : to_uint8 (of_uint8 b) = b.
Proof.
  unfold of_uint8, to_uint8.
  pose proof (Byte.to_N_bounded b) as Hb.
  rewrite Z.mod_small by lia. rewrite N2Z.id, Byte.of_to_N. done.
Qed.

Lemma of_uint8_range (b : byte) : 0 ≤ of_uint8 b < 256.
Proof. unfold of_uint8. pose proof (Byte.to_N_bounded b). lia. Qed.

(** A buffer with [k] bytes of room at [p], cut at [p] and [p + k]. *)
Lemma buf_split (buf : list byte) (p k : nat) :
  (p + k ≤ length buf)%nat →
  ∃ pre old suf, buf = pre ++ old ++ suf ∧ length pre = p ∧ length old = k
                 ∧ take p buf = pre ∧ drop (p + k) buf = suf.
Proof.
  intros Hp. exists (take p buf), (take k (drop p buf)), (drop (p + k) buf).
  repeat split.
  - rewrite <- drop_drop. by rewrite !take_drop.
  - rewrite length_take. lia.
  - rewrite length_take, length_drop. lia.
Qed.

Lemma put_at (pre : list byte) (x : Z) (y : byte) (suf : list byte) :
  put x (pre ++ y :: suf, length pre)
  = Some ((pre ++ [to_uint8 x]) ++ suf, length (pre ++ [to_uint8 x])).
Proof.
  unfold put, store. cbn [fst snd].
  rewrite decide_True by (rewrite length_app; simpl; lia).
  cbn [mbind option_bind]. f_equal. f_equal.
  - rewrite insert_app_r_alt by lia. rewrite Nat.sub_diag. simpl.
    by rewrite <- app_assoc.
  - rewrite length_app. simpl. lia.
Qed.

Lemma peek_at (pre l : list byte) (k : nat) :
  peek (pre ++ l) (length pre) k = of_uint8 <$> l !! k.
Proof.
  unfold peek. rewrite lookup_app_r by lia.
  by replace (length pre + k - length pre)%nat with k by lia.
Qed.

(** Adding the next byte up to the low bytes read so far. *)
Lemma low_bytes_step (u k : Z) :
  0 ≤ k → u mod 2 ^ k + ((u ≫ k) mod 256) * 2 ^ k = u mod 2 ^ (k + 8).
Proof.
  intros Hk. rewrite Z.shiftr_div_pow2 by done.
  rewrite Z.pow_add_r by lia. change (2 ^ 8) with 256.
  rewrite Z.rem_mul_r by lia. lia.
Qed.

Lemma byte_no_wrap (x n : Z) : 8 ≤ n → (x mod 256) mod 2 ^ n = x mod 256.
Proof.
  intros Hn. apply Z.mod_small.
  assert (256 ≤ 2 ^ n)
    by (change 256 with (2 ^ 8); apply Z.pow_le_mono_r; lia).
  pose proof (Z.mod_pos_bound x 256). lia.
Qed.

(** One more term of a reader's sum, in arithmetic modulo [2 ^ n]. *)
Lemma sum_step (u k n : Z) :
  0 ≤ k → k + 8 ≤ n →
  (u mod 2 ^ k + ((((u ≫ k) mod 256) ≪ k) mod 2 ^ n)) mod 2 ^ n
  = u mod 2 ^ (k + 8).
Proof.
  intros Hk Hn. rewrite Z.shiftl_mul_pow2 by done.
  assert (Hpow : 2 ^ (k + 8) ≤ 2 ^ n) by (apply Z.pow_le_mono_r; lia).
  assert (Hk8 : 0 < 2 ^ (k + 8)) by (apply Z.pow_pos_nonneg; lia).
  assert (H2k : 0 < 2 ^ k) by (apply Z.pow_pos_nonneg; lia).
  pose proof (Z.mod_pos_bound u (2 ^ (k + 8)) Hk8) as Hr.
  pose proof (Z.mod_pos_bound u (2 ^ k) H2k) as Hr0.
  pose proof (Z.mod_pos_bound (u ≫ k) 256 ltac:(lia)) as Hb.
  pose proof (low_bytes_step u k Hk) as Hs.
  rewrite (Z.mod_small (_ * _)) by nia.
  rewrite Hs. apply Z.mod_small. lia.
Qed.

End StreamIntegerFacts.

Ltac stream_cut Hp :=
  let pre := fresh "pre" in
  let old := fresh "old" in
  let suf := fresh "suf" in
  let Hold := fresh "Hold" in
  destruct (buf_split _ _ _ Hp) as (pre & old & suf & -> & <- & Hold & -> & ->);
  repeat (destruct old as [|? old]; [discriminate Hold|]);
  destruct old; [|discriminate Hold]; clear Hold Hp.

Ltac stream_written :=
  cbn [app];
  repeat (rewrite put_at; cbn [mbind option_bind]);
  try rewrite put_at;
  rewrite <- ?app_assoc, ?length_app; cbn [length app];
  apply (f_equal Some), pair_equal_spec; split; [reflexivity | lia].

Ltac stream_read :=
  unfold Stream.peek32, Stream.peek64; rewrite !peek_at;
  cbn [lookup list_lookup fmap option_fmap option_map mbind option_bind app];
  rewrite !of_to_uint8; apply (f_equal Some), pair_equal_spec;
  split; [|lia];
  unfold Stream.as_uint16, Stream.as_uint32, Stream.as_uint64;
  rewrite ?byte_no_wrap by lia.

(** X1.  [UINT16_TO_STREAM] on a stream with two bytes of room stores the
    low byte of the value and then the next one, touches nothing else and
    advances the cursor by 2; [STREAM_TO_UINT16] on the stream so written
    reads the value back, reduced modulo [2^16], and advances by 2. *)
Theorem UINT16_stream_roundtrip (buf : list byte) (p : nat) (u16 : Z) :
  (p + 2 ≤ length buf)%nat →
  ∃ buf' : list byte,
    Stream.UINT16_TO_STREAM buf p u16 = Some (buf', (p + 2)%nat)
    ∧ buf' = take p buf
               ++ [Stream.to_uint8 u16; Stream.to_uint8 (u16 ≫ 8)]
               ++ drop (p + 2) buf
    ∧ Stream.STREAM_TO_UINT16 buf' p = Some (u16 mod 2 ^ 16, (p + 2)%nat).
Proof.
  intros Hp. stream_cut Hp. refine (ex_intro _ _ (conj _ (conj eq_refl _))).
  - unfold Stream.UINT16_TO_STREAM. stream_written.
  - unfold Stream.STREAM_TO_UINT16. stream_read.
    rewrite Z.shiftl_mul_pow2 by lia.
    apply (low_bytes_step u16 8). lia.
Qed.

Ltac sum_steps u n :=
  change (u mod 256) with (u mod 2 ^ 8);
  rewrite (sum_step u 8 n) by lia; change (8 + 8) with 16;
  try (rewrite (sum_step u 16 n) by lia; change (16 + 8) with 24);
  try (rewrite (sum_step u 24 n) by lia; change (24 + 8) with 32);
  try (rewrite (sum_step u 32 n) by lia; change (32 + 8) with 40);
  try (rewrite (sum_step u 40 n) by lia; change (40 + 8) with 48);
  try (rewrite (sum_step u 48 n) by lia; change (48 + 8) with 56);
  try (rewrite (sum_step u 56 n) by lia; change (56 + 8) with 64);
  try reflexivity.

(** X2.  [UINT24_TO_STREAM] stores the three low bytes of the value, lowest
    first, touches nothing else and advances the cursor by 3;
    [STREAM_TO_UINT24] reads the value back modulo [2^24]. *)
Theorem UINT24_stream_roundtrip (buf : list byte) (p : nat) (u24 : Z) :
  (p + 3 ≤ length buf)%nat →
  ∃ buf' : list byte,
    Stream.UINT24_TO_STREAM buf p u24 = Some (buf', (p + 3)%nat)
    ∧ buf' = take p buf
               ++ [Stream.to_uint8 u24; Stream.to_uint8 (u24 ≫ 8);
                   Stream.to_uint8 (u24 ≫ 16)]
               ++ drop (p + 3) buf
    ∧ Stream.STREAM_TO_UINT24 buf' p = Some (u24 mod 2 ^ 24, (p + 3)%nat).
Proof.
  intros Hp. stream_cut Hp. refine (ex_intro _ _ (conj _ (conj eq_refl _))).
  - unfold Stream.UINT24_TO_STREAM. stream_written.
  - unfold Stream.STREAM_TO_UINT24. stream_read. sum_steps u24 32.
Qed.

(** X3.  [UINT32_TO_STREAM] stores the four low bytes of the value, lowest
    first, touches nothing else and advances the cursor by 4;
    [STREAM_TO_UINT32] reads the value back modulo [2^32]. *)
Theorem UINT32_stream_roundtrip (buf : list byte) (p : nat) (u32 : Z) :
  (p + 4 ≤ length buf)%nat →
  ∃ buf' : list byte,
    Stream.UINT32_TO_STREAM buf p u32 = Some (buf', (p + 4)%nat)
    ∧ buf' = take p buf
               ++ [Stream.to_uint8 u32; Stream.to_uint8 (u32 ≫ 8);
                   Stream.to_uint8 (u32 ≫ 16); Stream.to_uint8 (u32 ≫ 24)]
               ++ drop (p + 4) buf
    ∧ Stream.STREAM_TO_UINT32 buf' p = Some (u32 mod 2 ^ 32, (p + 4)%nat).
Proof.
  intros Hp. stream_cut Hp. refine (ex_intro _ _ (conj _ (conj eq_refl _))).
  - unfold Stream.UINT32_TO_STREAM. stream_written.
  - unfold Stream.STREAM_TO_UINT32. stream_read. sum_steps u32 32.
Qed.

(** X4.  [UINT16_TO_BE_STREAM] stores the high byte of the 16-bit value
    first, touches nothing else and advances the cursor by 2;
    [BE_STREAM_TO_UINT16] reads the value back modulo [2^16]. *)
Theorem UINT16_BE_stream_roundtrip (buf : list byte) (p : nat) (u16 : Z) :
  (p + 2 ≤ length buf)%nat →
  ∃ buf' : list byte,
    Stream.UINT16_TO_BE_STREAM buf p u16 = Some (buf', (p + 2)%nat)
    ∧ buf' = take p buf
               ++ [Stream.to_uint8 (u16 ≫ 8); Stream.to_uint8 u16]
               ++ drop (p + 2) buf
    ∧ Stream.BE_STREAM_TO_UINT16 buf' p
      = Some (u16 mod 2 ^ 16, (p + 2)%nat).
Proof.
  intros Hp. stream_cut Hp. refine (ex_intro _ _ (conj _ (conj eq_refl _))).
  - unfold Stream.UINT16_TO_BE_STREAM. stream_written.
  - unfold Stream.BE_STREAM_TO_UINT16. stream_read.
    rewrite Z.shiftl_mul_pow2 by lia. rewrite (Z.add_comm (_ * _)).
    change (u16 mod 256) with (u16 mod 2 ^ 8).
    rewrite (low_bytes_step u16 8) by lia. change (8 + 8) with 16.
    apply Z.mod_mod. lia.
Qed.

(** X5.  [UINT24_TO_BE_STREAM] stores the three low bytes of the value,
    highest first; [BE_STREAM_TO_UINT24] reads the value back modulo
    [2^24]. *)
Theorem UINT24_BE_stream_roundtrip (buf : list byte) (p : nat) (u24 : Z) :
  (p + 3 ≤ length buf)%nat →
  ∃ buf' : list byte,
    Stream.UINT24_TO_BE_STREAM buf p u24 = Some (buf', (p + 3)%nat)
    ∧ buf' = take p buf
               ++ [Stream.to_uint8 (u24 ≫ 16); Stream.to_uint8 (u24 ≫ 8);
                   Stream.to_uint8 u24]
               ++ drop (p + 3) buf
    ∧ Stream.BE_STREAM_TO_UINT24 buf' p
      = Some (u24 mod 2 ^ 24, (p + 3)%nat).
Proof.
  intros Hp. stream_cut Hp. refine (ex_intro _ _ (conj _ (conj eq_refl _))).
  - unfold Stream.UINT24_TO_BE_STREAM. stream_written.
  - unfold Stream.BE_STREAM_TO_UINT24. stream_read. sum_steps u24 32.
Qed.

(** X6.  [UINT32_TO_BE_STREAM] stores the four low bytes of the value,
    highest first; [BE_STREAM_TO_UINT32] reads the value back modulo
    [2^32]. *)
Theorem UINT32_BE_stream_roundtrip (buf : list byte) (p : nat) (u32 : Z) :
  (p + 4 ≤ length buf)%nat →
  ∃ buf' : list byte,
    Stream.UINT32_TO_BE_STREAM buf p u32 = Some (buf', (p + 4)%nat)
    ∧ buf' = take p buf
               ++ [Stream.to_uint8 (u32 ≫ 24); Stream.to_uint8 (u32 ≫ 16);
                   Stream.to_uint8 (u32 ≫ 8); Stream.to_uint8 u32]
               ++ drop (p + 4) buf
    ∧ Stream.BE_STREAM_TO_UINT32 buf' p
      = Some (u32 mod 2 ^ 32, (p + 4)%nat).
Proof.
  intros Hp. stream_cut Hp. refine (ex_intro _ _ (conj _ (conj eq_refl _))).
  - unfold Stream.UINT32_TO_BE_STREAM. stream_written.
  - unfold Stream.BE_STREAM_TO_UINT32. stream_read. sum_steps u32 32.
Qed.

(** X7.  [UINT64_TO_BE_STREAM] stores the eight low bytes of the value,
    highest first, touches nothing else and advances the cursor by 8;
    [BE_STREAM_TO_UINT64] reads the value back modulo [2^64]. *)
Theorem UINT64_BE_stream_roundtrip (buf : list byte) (p : nat) (u64 : Z) :
  (p + 8 ≤ length buf)%nat →
  ∃ buf' : list byte,
    Stream.UINT64_TO_BE_STREAM buf p u64 = Some (buf', (p + 8)%nat)
    ∧ buf' = take p buf
               ++ [Stream.to_uint8 (u64 ≫ 56); Stream.to_uint8 (u64 ≫ 48);
                   Stream.to_uint8 (u64 ≫ 40); Stream.to_uint8 (u64 ≫ 32);
                   Stream.to_uint8 (u64 ≫ 24); Stream.to_uint8 (u64 ≫ 16);
                   Stream.to_uint8 (u64 ≫ 8); Stream.to_uint8 u64]
               ++ drop (p + 8) buf
    ∧ Stream.BE_STREAM_TO_UINT64 buf' p
      = Some (u64 mod 2 ^ 64, (p + 8)%nat).
Proof.
  intros Hp. stream_cut Hp. refine (ex_intro _ _ (conj _ (conj eq_refl _))).
  - unfold Stream.UINT64_TO_BE_STREAM. stream_written.
  - unfold Stream.BE_STREAM_TO_UINT64. stream_read. sum_steps u64 64.
Qed.

Ltac no_wrap :=
  repeat match goal with
         | |- context [?a mod ?b] => rewrite (Z.mod_small a b) by lia
         end.

(** X8.  Reading eight bytes as a little-endian [uint64_t] gives the
    little-endian [uint32_t] at the cursor plus [2^32] times the one four
    bytes on; the big-endian readers compose the other way round. *)
Theorem STREAM_TO_UINT64_halves (buf : list byte) (p : nat) :
  (p + 8 ≤ length buf)%nat →
  ∃ lo hi : Z,
    Stream.STREAM_TO_UINT32 buf p = Some (lo, (p + 4)%nat)
    ∧ Stream.STREAM_TO_UINT32 buf (p + 4) = Some (hi, (p + 8)%nat)
    ∧ Stream.STREAM_TO_UINT64 buf p = Some (lo + hi * 2 ^ 32, (p + 8)%nat)
    ∧ ∃ hi' lo' : Z,
        Stream.BE_STREAM_TO_UINT32 buf p = Some (hi', (p + 4)%nat)
        ∧ Stream.BE_STREAM_TO_UINT32 buf (p + 4) = Some (lo', (p + 8)%nat)
        ∧ Stream.BE_STREAM_TO_UINT64 buf p
          = Some (hi' * 2 ^ 32 + lo', (p + 8)%nat).
Proof.
  intros Hp.
  destruct (buf_split _ _ _ Hp) as (pre & old & suf & -> & <- & Hold & _ & _).
  repeat (destruct old as [|? old]; [discriminate Hold|]).
  destruct old; [|discriminate Hold]. clear Hold Hp.
  assert (Hoff : ∀ (l : list byte) (j k : nat),
            Stream.peek (pre ++ l) (length pre + j) k
            = Stream.of_uint8 <$> l !! (j + k)%nat).
  { intros l j k. unfold Stream.peek. rewrite lookup_app_r by lia.
    f_equal. f_equal. lia. }
  unfold Stream.STREAM_TO_UINT32, Stream.BE_STREAM_TO_UINT32,
    Stream.STREAM_TO_UINT64, Stream.BE_STREAM_TO_UINT64,
    Stream.peek32, Stream.peek64.
  rewrite !Hoff, !peek_at.
  replace (length pre + 4 + 4)%nat with (length pre + 8)%nat by lia.
  cbn [lookup list_lookup fmap option_fmap option_map mbind option_bind app
       Nat.add].
  pose proof (of_uint8_range b). pose proof (of_uint8_range b0).
  pose proof (of_uint8_range b1). pose proof (of_uint8_range b2).
  pose proof (of_uint8_range b3). pose proof (of_uint8_range b4).
  pose proof (of_uint8_range b5). pose proof (of_uint8_range b6).
  unfold Stream.as_uint32, Stream.as_uint64.
  rewrite !Z.shiftl_mul_pow2 by lia.
  do 2 eexists. split; [reflexivity|]. split; [reflexivity|].
  split.
  - apply (f_equal Some), pair_equal_spec. split; [|lia]. no_wrap. lia.
  - do 2 eexists. split; [reflexivity|]. split; [reflexivity|].
    apply (f_equal Some), pair_equal_spec. split; [|lia]. no_wrap. lia.
Qed.

(** ** Arrays in a stream *)

Lemma ARRAY_TO_STREAM_loop_spec (n : nat) :
  ∀ (ijk : nat) (a buf : list byte) (p : nat),
    (ijk + n ≤ length a)%nat → (p + n ≤ length buf)%nat →
    Stream.ARRAY_TO_STREAM_loop n ijk a buf p
    = Some (take p buf ++ take n (drop ijk a) ++ drop (p + n) buf,
            (p + n)%nat).
Proof.
  induction n as [|n IH]; intros ijk a buf p Ha Hp;
    cbn [Stream.ARRAY_TO_STREAM_loop].
  - rewrite Nat.add_0_r. simpl. by rewrite take_drop.
  - destruct (lookup_lt_is_Some_2 a ijk) as [v Hv]; [lia|].
    rewrite Hv. cbn [mbind option_bind].
    rewrite store_Some by lia. cbn [mbind option_bind].
    rewrite IH; [|lia|rewrite length_insert; lia].
    apply (f_equal Some), pair_equal_spec. split; [|lia].
    rewrite (drop_S a v ijk Hv). cbn [take].
    rewrite (take_S_r (<[p:=v]> buf) p v)
      by (apply list_lookup_insert_eq; lia).
    rewrite take_insert_ge by lia. rewrite drop_insert_lt by lia.
    rewrite <- app_assoc. simpl.
    by replace (S (p + n)) with (p + S n)%nat by lia.
Qed.

Lemma STREAM_TO_ARRAY_loop_spec (n : nat) :
  ∀ (ijk : nat) (a buf : list byte) (p : nat),
    (ijk + n ≤ length a)%nat → (p + n ≤ length buf)%nat →
    Stream.STREAM_TO_ARRAY_loop n ijk a buf p
    = Some (take ijk a ++ take n (drop p buf) ++ drop (ijk + n) a,
            (p + n)%nat).
Proof.
  induction n as [|n IH]; intros ijk a buf p Ha Hp;
    cbn [Stream.STREAM_TO_ARRAY_loop].
  - rewrite !Nat.add_0_r. simpl. by rewrite take_drop.
  - destruct (lookup_lt_is_Some_2 buf p) as [v Hv]; [lia|].
    rewrite Hv. cbn [mbind option_bind].
    rewrite store_Some by lia. cbn [mbind option_bind].
    rewrite IH; [|rewrite length_insert; lia|lia].
    apply (f_equal Some), pair_equal_spec. split; [|lia].
    rewrite (drop_S buf v p Hv). cbn [take].
    rewrite (take_S_r (<[ijk:=v]> a) ijk v)
      by (apply list_lookup_insert_eq; lia).
    rewrite take_insert_ge by lia. rewrite drop_insert_lt by lia.
    rewrite <- app_assoc. simpl.
    by replace (S (ijk + n)) with (ijk + S n)%nat by lia.
Qed.

Lemma REVERSE_ARRAY_TO_STREAM_loop_spec (n : nat) :
  ∀ (ijk len : nat) (a buf : list byte) (p : nat),
    (ijk + n = len)%nat → (len ≤ length a)%nat →
    (p + n ≤ length buf)%nat →
    Stream.REVERSE_ARRAY_TO_STREAM_loop n ijk len a buf p
    = Some (take p buf ++ reverse (take n a) ++ drop (p + n) buf,
            (p + n)%nat).
Proof.
  induction n as [|n IH]; intros ijk len a buf p Hijk Ha Hp;
    cbn [Stream.REVERSE_ARRAY_TO_STREAM_loop].
  - rewrite Nat.add_0_r. simpl. by rewrite take_drop.
  - replace (len - 1 - ijk)%nat with n by lia.
    destruct (lookup_lt_is_Some_2 a n) as [v Hv]; [lia|].
    rewrite Hv. cbn [mbind option_bind].
    rewrite store_Some by lia. cbn [mbind option_bind].
    rewrite (IH (S ijk)); [|lia|done|rewrite length_insert; lia].
    apply (f_equal Some), pair_equal_spec. split; [|lia].
    rewrite (take_S_r _ _ _ Hv), reverse_snoc.
    rewrite (take_S_r (<[p:=v]> buf) p v)
      by (apply list_lookup_insert_eq; lia).
    rewrite take_insert_ge by lia. rewrite drop_insert_lt by lia.
    rewrite <- app_assoc. simpl.
    by replace (S (p + n)) with (p + S n)%nat by lia.
Qed.

(** The two descending readers are the same loop. *)
Lemma REVERSE_STREAM_TO_ARRAY_loop_BDADDR (n : nat) :
  ∀ (a : list byte) (pa : Z) (buf : list byte) (p : nat),
    Stream.REVERSE_STREAM_TO_ARRAY_loop n a pa buf p
    = Stream.STREAM_TO_BDADDR_loop n a pa buf p.
Proof.
  induction n as [|n IH]; intros a pa buf p; [done|].
  cbn [Stream.REVERSE_STREAM_TO_ARRAY_loop Stream.STREAM_TO_BDADDR_loop].
  destruct (buf !! p) as [v|]; [|done]. cbn [mbind option_bind].
  destruct (Stream.poke a pa v) as [a'|]; [|done]. cbn [mbind option_bind].
  apply IH.
Qed.

Lemma REVERSE_ARRAY_TO_STREAM_loop_BDADDR (n : nat) :
  ∀ (ijk : nat) (a : RawAddress.t) (buf : list byte) (p : nat),
    Stream.REVERSE_ARRAY_TO_STREAM_loop n ijk BD_ADDR_LEN
      (RawAddress.address a) buf p
    = Stream.BDADDR_TO_STREAM_loop n ijk a buf p.
Proof.
  induction n as [|n IH]; intros ijk a buf p; [done|].
  cbn [Stream.REVERSE_ARRAY_TO_STREAM_loop Stream.BDADDR_TO_STREAM_loop].
  destruct (RawAddress.address a !! _) as [v|]; [|done].
  cbn [mbind option_bind].
  destruct (Stream.store buf p v) as [buf'|]; [|done].
  cbn [mbind option_bind]. apply IH.
Qed.

Lemma REVERSE_STREAM_TO_ARRAY_loop_spec (n : nat) (a buf : list byte)
    (p : nat) :
  (n ≤ length a)%nat → (p + n ≤ length buf)%nat →
  Stream.REVERSE_STREAM_TO_ARRAY_loop n a (Z.of_nat n - 1) buf p
  = Some (reverse (take n (drop p buf)) ++ drop n a, (p + n)%nat).
Proof.
  intros Ha Hp. rewrite REVERSE_STREAM_TO_ARRAY_loop_BDADDR.
  by apply STREAM_TO_BDADDR_loop_spec.
Qed.

(** What is read back from a stream holding [l] at the cursor. *)
Lemma take_drop_written (pre l suf : list byte) :
  take (length l) (drop (length pre) (pre ++ l ++ suf)) = l.
Proof. rewrite drop_app_length. by rewrite take_app_length. Qed.

Lemma REVERSE_ARRAY_stream_roundtrip_aux (a a0 buf : list byte)
    (p len : nat) :
  (len ≤ length a)%nat → (len ≤ length a0)%nat →
  (p + len ≤ length buf)%nat →
  ∃ buf' : list byte,
    Stream.REVERSE_ARRAY_TO_STREAM_loop len 0 len a buf p
    = Some (buf', (p + len)%nat)
    ∧ buf' = take p buf ++ reverse (take len a) ++ drop (p + len) buf
    ∧ Stream.REVERSE_STREAM_TO_ARRAY_loop len a0 (Z.of_nat len - 1) buf' p
      = Some (take len a ++ drop len a0, (p + len)%nat).
Proof.
  intros Ha Ha0 Hp.
  refine (ex_intro _ _ (conj _ (conj eq_refl _))).
  - by rewrite (REVERSE_ARRAY_TO_STREAM_loop_spec len 0 len) by lia.
  - assert (Hpre : length (take p buf) = p) by (rewrite length_take; lia).
    assert (Hl : length (reverse (take len a)) = len)
      by (rewrite length_reverse, length_take; lia).
    rewrite REVERSE_STREAM_TO_ARRAY_loop_spec;
      [|lia|rewrite !length_app, length_drop; lia].
    rewrite <- Hpre at 1. rewrite <- Hl at 1.
    by rewrite take_drop_written, reverse_involutive.
Qed.

(** X9.  [ARRAY_TO_STREAM] copies the first [len] bytes of the array to
    the stream in their order, touches nothing else and advances the cursor
    by [len]; [STREAM_TO_ARRAY] with the same [len] on the stream so written
    fills the first [len] bytes of its array with them and leaves the rest of
    that array as it was.  With [len = 0] neither changes anything. *)
Theorem ARRAY_stream_roundtrip (a a0 buf : list byte) (p len : nat) :
  (len ≤ length a)%nat → (len ≤ length a0)%nat →
  (p + len ≤ length buf)%nat →
  ∃ buf' : list byte,
    Stream.ARRAY_TO_STREAM buf p a len = Some (buf', (p + len)%nat)
    ∧ buf' = take p buf ++ take len a ++ drop (p + len) buf
    ∧ Stream.STREAM_TO_ARRAY a0 buf' p len
      = Some (take len a ++ drop len a0, (p + len)%nat).
Proof.
  intros Ha Ha0 Hp. refine (ex_intro _ _ (conj _ (conj eq_refl _))).
  - unfold Stream.ARRAY_TO_STREAM.
    by rewrite ARRAY_TO_STREAM_loop_spec by lia.
  - unfold Stream.STREAM_TO_ARRAY.
    assert (Hpre : length (take p buf) = p) by (rewrite length_take; lia).
    assert (Hl : length (take len a) = len) by (rewrite length_take; lia).
    rewrite STREAM_TO_ARRAY_loop_spec;
      [|lia|rewrite !length_app, length_drop; lia].
    apply (f_equal Some), pair_equal_spec. split; [|lia]. simpl.
    rewrite <- Hpre at 1. rewrite <- Hl at 1.
    by rewrite take_drop_written.
Qed.

(** X10.  [REVERSE_ARRAY_TO_STREAM] copies the first [len] bytes of the
    array to the stream last one first, touches nothing else and advances
    the cursor by [len]; [REVERSE_STREAM_TO_ARRAY] with the same [len] on the
    stream so written puts them back in their order into the first [len]
    bytes of its array, while [STREAM_TO_ARRAY] would find them
    reversed. *)
Theorem REVERSE_ARRAY_stream_roundtrip (a a0 buf : list byte)
    (p len : nat) :
  (len ≤ length a)%nat → (len ≤ length a0)%nat →
  (p + len ≤ length buf)%nat →
  ∃ buf' : list byte,
    Stream.REVERSE_ARRAY_TO_STREAM buf p a len = Some (buf', (p + len)%nat)
    ∧ buf' = take p buf ++ reverse (take len a) ++ drop (p + len) buf
    ∧ Stream.REVERSE_STREAM_TO_ARRAY a0 buf' p len
      = Some (take len a ++ drop len a0, (p + len)%nat)
    ∧ Stream.STREAM_TO_ARRAY a0 buf' p len
      = Some (reverse (take len a) ++ drop len a0, (p + len)%nat).
Proof.
  intros Ha Ha0 Hp.
  refine (ex_intro _ _ (conj _ (conj eq_refl _))).
  - unfold Stream.REVERSE_ARRAY_TO_STREAM.
    by rewrite (REVERSE_ARRAY_TO_STREAM_loop_spec len 0 len) by lia.
  - assert (Hpre : length (take p buf) = p) by (rewrite length_take; lia).
    assert (Hl : length (reverse (take len a)) = len)
      by (rewrite length_reverse, length_take; lia).
    assert (Hbuf : (p + len ≤ length (take p buf ++ reverse (take len a)
                                       ++ drop (p + len) buf))%nat)
      by (rewrite !length_app, length_drop; lia).
    assert (Hread : take len (drop p (take p buf ++ reverse (take len a)
                                        ++ drop (p + len) buf))
                    = reverse (take len a)).
    { rewrite <- Hpre at 1. rewrite <- Hl at 1. apply take_drop_written. }
    split.
    + unfold Stream.REVERSE_STREAM_TO_ARRAY.
      rewrite REVERSE_STREAM_TO_ARRAY_loop_spec by lia.
      by rewrite Hread, reverse_involutive.
    + unfold Stream.STREAM_TO_ARRAY.
      rewrite STREAM_TO_ARRAY_loop_spec by lia.
      simpl. by rewrite Hread.
Qed.

(** X11.  The fixed-length writers that reverse and their readers
    ([ARRAY8], [ARRAY16], [ARRAY32], [LAP], [DEVCLASS]): on an array of the
    length the macro is made for, the writer stores its bytes last one
    first and advances the cursor by that length, and the reader gives the
    array back. *)
Theorem fixed_ARRAY_stream_roundtrips (a a0 buf : list byte) (p : nat) :
  let pair n W R :=
    length a = n → length a0 = n → (p + n ≤ length buf)%nat →
    ∃ buf' : list byte,
      W buf p a = Some (buf', (p + n)%nat)
      ∧ buf' = take p buf ++ reverse a ++ drop (p + n) buf
      ∧ R a0 buf' p = Some (a, (p + n)%nat) in
  pair 8%nat Stream.ARRAY8_TO_STREAM Stream.STREAM_TO_ARRAY8
  ∧ pair 16%nat Stream.ARRAY16_TO_STREAM Stream.STREAM_TO_ARRAY16
  ∧ pair 32%nat Stream.ARRAY32_TO_STREAM Stream.STREAM_TO_ARRAY32
  ∧ pair Stream.LAP_LEN Stream.LAP_TO_STREAM Stream.STREAM_TO_LAP
  ∧ pair Stream.DEV_CLASS_LEN Stream.DEVCLASS_TO_STREAM
      Stream.STREAM_TO_DEVCLASS.
Proof.
  assert (Hgen : ∀ n : nat,
    length a = n → length a0 = n → (p + n ≤ length buf)%nat →
    ∃ buf' : list byte,
      Stream.REVERSE_ARRAY_TO_STREAM_loop n 0 n a buf p
      = Some (buf', (p + n)%nat)
      ∧ buf' = take p buf ++ reverse a ++ drop (p + n) buf
      ∧ Stream.REVERSE_STREAM_TO_ARRAY_loop n a0 (Z.of_nat n - 1) buf' p
        = Some (a, (p + n)%nat)).
  { intros n Ha Ha0 Hp.
    destruct (REVERSE_ARRAY_stream_roundtrip_aux a a0 buf p n)
      as (buf' & Hw & -> & Hr); [lia..|].
    rewrite (take_ge a) in Hw, Hr by lia.
    rewrite (drop_ge a0), app_nil_r in Hr by lia. eauto. }
  cbv zeta. repeat split; intros Ha Ha0 Hp;
    first [ exact (Hgen 8%nat Ha Ha0 Hp) | exact (Hgen 16%nat Ha Ha0 Hp)
          | exact (Hgen 32%nat Ha Ha0 Hp) | exact (Hgen 3%nat Ha Ha0 Hp) ].
Qed.

(** X12.  [BDADDR_TO_STREAM] is [REVERSE_ARRAY_TO_STREAM] at the length
    [BD_ADDR_LEN], and [STREAM_TO_BDADDR] is [REVERSE_STREAM_TO_ARRAY] at
    that length, on every address, stream and cursor, also where the
    stream is too short. *)
Theorem BDADDR_is_REVERSE_ARRAY (a : RawAddress.t) (buf : list byte)
    (p : nat) :
  Stream.BDADDR_TO_STREAM buf p a
  = Stream.REVERSE_ARRAY_TO_STREAM buf p (RawAddress.address a) BD_ADDR_LEN
  ∧ Stream.STREAM_TO_BDADDR a buf p
    = (Stream.REVERSE_STREAM_TO_ARRAY (RawAddress.address a) buf p
         BD_ADDR_LEN
       ≫= λ r, Some (RawAddress.mk r.1, r.2)).
Proof.
  split.
  - unfold Stream.BDADDR_TO_STREAM, Stream.REVERSE_ARRAY_TO_STREAM.
    symmetry. apply REVERSE_ARRAY_TO_STREAM_loop_BDADDR.
  - unfold Stream.STREAM_TO_BDADDR, Stream.REVERSE_STREAM_TO_ARRAY.
    change (Stream.REVERSE_STREAM_TO_ARRAY_loop BD_ADDR_LEN)
      with (Stream.STREAM_TO_BDADDR_loop BD_ADDR_LEN).
    by destruct (Stream.STREAM_TO_BDADDR_loop _ _ _ _ _) as [[arr p']|].
Qed.

(** ** Trace words, address kinds, HCI headers *)

Lemma masked_field (u k : Z) (mask : Z) :
  0 ≤ k → mask ≫ k = 255 → Z.land u mask ≫ k = (u ≫ k) mod 256.
Proof.
  intros Hk Hmask. rewrite Z.shiftr_land, Hmask.
  change 255 with (Z.ones 8). rewrite Z.land_ones by lia. done.
Qed.

(** X13.  The four fields of a trace word split it: each of
    [TRACE_GET_CTRL], [TRACE_GET_LAYER], [TRACE_GET_ORG] and
    [TRACE_GET_TYPE] is a byte, and the word, as a [uint32_t], is
    [ctrl * 2^24 + layer * 2^16 + org * 2^8 + type]. *)
Theorem TRACE_GET_fields (x : Z) :
  0 ≤ Stream.TRACE_GET_CTRL x < 256
  ∧ 0 ≤ Stream.TRACE_GET_LAYER x < 256
  ∧ 0 ≤ Stream.TRACE_GET_ORG x < 256
  ∧ 0 ≤ Stream.TRACE_GET_TYPE x < 256
  ∧ Stream.as_uint32 x
    = Stream.TRACE_GET_CTRL x * 2 ^ 24 + Stream.TRACE_GET_LAYER x * 2 ^ 16
      + Stream.TRACE_GET_ORG x * 2 ^ 8 + Stream.TRACE_GET_TYPE x.
Proof.
  unfold Stream.TRACE_GET_CTRL, Stream.TRACE_GET_LAYER, Stream.TRACE_GET_ORG,
    Stream.TRACE_GET_TYPE.
  set (u := Stream.as_uint32 x).
  rewrite !masked_field by (reflexivity || lia).
  change Stream.TRACE_TYPE_MASK with (Z.ones 8).
  rewrite Z.land_ones by lia.
  repeat split; try (apply Z.mod_pos_bound; lia).
  assert (Hu : u mod 2 ^ 32 = u).
  { unfold u, Stream.as_uint32. apply Z.mod_mod. lia. }
  pose proof (low_bytes_step u 8 ltac:(lia)) as H8.
  pose proof (low_bytes_step u 16 ltac:(lia)) as H16.
  pose proof (low_bytes_step u 24 ltac:(lia)) as H24.
  change (8 + 8) with 16 in H8. change (16 + 8) with 24 in H16.
  change (24 + 8) with 32 in H24. lia.
Qed.

Lemma static_bits (b : byte) :
  bool_decide (Z.land (Stream.of_uint8 b) 0xC0 = 0xC0)
  = bool_decide (0xC0 ≤ Stream.of_uint8 b).
Proof. destruct b; reflexivity. Qed.

(** X14.  [BLE_ADDR_IS_STATIC] holds of an address exactly when its first
    byte is 0xC0 or more, that is, when the two top bits of that byte are
    set. *)
Theorem BLE_ADDR_IS_STATIC_iff (b : byte) (rest : list byte) :
  (Stream.BLE_ADDR_IS_STATIC (b :: rest) = Some true
   ↔ 0xC0 ≤ Stream.of_uint8 b)
  ∧ (Stream.BLE_ADDR_IS_STATIC (b :: rest) = Some true
     ↔ Z.testbit (Stream.of_uint8 b) 7 = true
       ∧ Z.testbit (Stream.of_uint8 b) 6 = true).
Proof.
  unfold Stream.BLE_ADDR_IS_STATIC. cbn [lookup list_lookup mbind option_bind].
  rewrite static_bits. split.
  - split.
    + intros [= Hb]. by apply bool_decide_eq_true in Hb.
    + intros Hb. f_equal. by apply bool_decide_eq_true.
  - destruct b; vm_compute; split; intros Hb;
      first [ done | by destruct Hb | by injection Hb ].
Qed.

(** X15.  An HCI command header written at [offset] of the data of a
    buffer, the opcode with [UINT16_TO_STREAM] and the parameter length
    with [UINT8_TO_STREAM], is what [HCI_GET_CMD_HDR_OPCODE] and
    [HCI_GET_CMD_HDR_PARAM_LEN] read, as 16 and 8 bits; written as two
    bytes, event code and length, it is what [HCI_GET_EVT_HDR_OPCODE] and
    [HCI_GET_EVT_HDR_PARAM_LEN] read. *)
Theorem HCI_header_roundtrip (hdr : Stream.BT_HDR) (opcode param_len : Z) :
  let at_offset := Z.to_nat (Stream.offset hdr) in
  let with_data d :=
    Stream.mkBT_HDR (Stream.event hdr) (Stream.len hdr) (Stream.offset hdr)
      (Stream.layer_specific hdr) d in
  (at_offset + 3 ≤ length (Stream.data hdr))%nat →
  (∃ d1 d2 : list byte,
     Stream.UINT16_TO_STREAM (Stream.data hdr) at_offset opcode
     = Some (d1, (at_offset + 2)%nat)
     ∧ Stream.UINT8_TO_STREAM d1 (at_offset + 2) param_len
       = Some (d2, (at_offset + 3)%nat)
     ∧ Stream.HCI_GET_CMD_HDR_OPCODE (with_data d2)
       = Some (opcode mod 2 ^ 16)
     ∧ Stream.HCI_GET_CMD_HDR_PARAM_LEN (with_data d2)
       = Some (param_len mod 256))
  ∧ (∃ d1 d2 : list byte,
       Stream.UINT8_TO_STREAM (Stream.data hdr) at_offset opcode
       = Some (d1, (at_offset + 1)%nat)
       ∧ Stream.UINT8_TO_STREAM d1 (at_offset + 1) param_len
         = Some (d2, (at_offset + 2)%nat)
       ∧ Stream.HCI_GET_EVT_HDR_OPCODE (with_data d2)
         = Some (opcode mod 256)
       ∧ Stream.HCI_GET_EVT_HDR_PARAM_LEN (with_data d2)
         = Some (param_len mod 256)).
Proof.
  intros at_offset with_data Hp. subst with_data.
  destruct (buf_split _ _ _ Hp) as (pre & old & suf & Hd & Hpre & Hold & _).
  repeat (destruct old as [|? old]; [discriminate Hold|]).
  destruct old; [|discriminate Hold]. clear Hold Hp.
  unfold Stream.HCI_GET_CMD_HDR_OPCODE, Stream.HCI_GET_CMD_HDR_PARAM_LEN,
    Stream.HCI_GET_EVT_HDR_OPCODE, Stream.HCI_GET_EVT_HDR_PARAM_LEN,
    Stream.UINT16_TO_STREAM, Stream.UINT8_TO_STREAM.
  cbn [Stream.data Stream.offset]. fold at_offset.
  rewrite Hd, <- Hpre. cbn [app]. split.
  - rewrite put_at. cbn [mbind option_bind]. rewrite put_at.
    replace (length ((pre ++ [Stream.to_uint8 opcode])
                     ++ [Stream.to_uint8 (opcode ≫ 8)]))
      with (length pre + 2)%nat by (rewrite !length_app; simpl; lia).
    rewrite <- !app_assoc. cbn [app].
    do 2 eexists. split; [reflexivity|].
    assert (Hcut : pre ++ Stream.to_uint8 opcode
                     :: Stream.to_uint8 (opcode ≫ 8) :: b1 :: suf
                   = (pre ++ [Stream.to_uint8 opcode;
                              Stream.to_uint8 (opcode ≫ 8)]) ++ b1 :: suf)
      by (by rewrite <- app_assoc).
    assert (Hlen : (length pre + 2)%nat
                   = length (pre ++ [Stream.to_uint8 opcode;
                                     Stream.to_uint8 (opcode ≫ 8)]))
      by (rewrite length_app; simpl; lia).
    split.
    { rewrite Hcut, Hlen, put_at. rewrite <- !app_assoc, !length_app.
      cbn [app length]. apply (f_equal Some), pair_equal_spec.
      split; [reflexivity | lia]. }
    rewrite !peek_at.
    cbn [lookup list_lookup fmap option_fmap option_map mbind option_bind].
    rewrite !of_to_uint8. split; [|done].
    f_equal. unfold Stream.as_uint16.
    rewrite Z.shiftl_mul_pow2 by lia.
    change (opcode mod 256) with (opcode mod 2 ^ 8).
    rewrite (low_bytes_step opcode 8) by lia. change (8 + 8) with 16.
    apply Z.mod_mod. lia.
  - rewrite put_at.
    replace (length (pre ++ [Stream.to_uint8 opcode]))
      with (length pre + 1)%nat by (rewrite !length_app; simpl; lia).
    do 2 eexists. split; [reflexivity|].
    assert (Hlen : (length pre + 1)%nat
                   = length (pre ++ [Stream.to_uint8 opcode]))
      by (rewrite length_app; simpl; lia).
    split.
    { rewrite Hlen, put_at. rewrite <- !app_assoc, !length_app.
      cbn [app length]. apply (f_equal Some), pair_equal_spec.
      split; [reflexivity | lia]. }
    rewrite !peek_at.
    cbn [lookup list_lookup fmap option_fmap option_map mbind option_bind].
    by rewrite !of_to_uint8.
Qed.

(** ** More on the shim *)

Section ShimMoreFacts.
Context {uuid_t : Type} `{!Uuid.Ops uuid_t}.
Context {hci_uuid_t : Type} `{!hci.Uuid.Ops hci_uuid_t}.
Context `{!Defaults}.

Abbreviation Sh := (@Shim uuid_t hci_uuid_t).
Abbreviation St := (@State uuid_t hci_uuid_t).
Abbreviation Ev := (@event uuid_t hci_uuid_t).

Lemma uuid_switch_is_Some (n : Z) (u : uuid_t) :
  is_Some (uuid_switch n u) ↔ n = 2 ∨ n = 4 ∨ n = 16.
Proof.
  unfold uuid_switch, Uuid.kNumBytes16, Uuid.kNumBytes32, Uuid.kNumBytes128.
  repeat case_decide; split; intros Hn;
    try (by eexists); try lia; by destruct Hn.
Qed.

(** The size [parse_filter_command] switches on, for both UUIDs. *)
Abbreviation uuid_len f :=
  (uint8 (Uuid.GetShortestRepresentationSize (ApcfCommand.uuid f))).

(** X16.  A batch command translates exactly when both of its UUIDs are
    empty or the size of its value UUID, read into a [uint8_t], is 2, 4 or
    16; nothing else in the command can make the translation fail. *)
Theorem translate_succeeds_iff (f : ApcfCommand.t uuid_t) :
  is_Some (translate f)
  ↔ (Uuid.IsEmpty (ApcfCommand.uuid f) = true
     ∧ Uuid.IsEmpty (ApcfCommand.uuid_mask f) = true)
    ∨ uuid_len f = 2 ∨ uuid_len f = 4 ∨ uuid_len f = 16.
Proof.
  unfold translate, parse_filter_command. cbv zeta.
  destruct (decide (uuid_len f = 2 ∨ uuid_len f = 4 ∨ uuid_len f = 16))
    as [HL|HL].
  - destruct (proj2 (uuid_switch_is_Some _ (ApcfCommand.uuid f)) HL)
      as [v ->].
    destruct (proj2 (uuid_switch_is_Some _ (ApcfCommand.uuid_mask f)) HL)
      as [w ->].
    destruct (Uuid.IsEmpty (ApcfCommand.uuid f));
      destruct (Uuid.IsEmpty (ApcfCommand.uuid_mask f));
      cbn; (split; [intros _; by right | intros _; by eexists]).
  - assert (Hu : uuid_switch (uuid_len f) (ApcfCommand.uuid f) = None).
    { apply eq_None_not_Some. by rewrite uuid_switch_is_Some. }
    assert (Hm : uuid_switch (uuid_len f) (ApcfCommand.uuid_mask f) = None).
    { apply eq_None_not_Some. by rewrite uuid_switch_is_Some. }
    rewrite Hu, Hm.
    destruct (Uuid.IsEmpty (ApcfCommand.uuid f));
      destruct (Uuid.IsEmpty (ApcfCommand.uuid_mask f));
      cbn; split; intros Hs;
      first [ by left | by eexists
            | exfalso; destruct Hs as [z Hz]; discriminate Hz
            | exfalso; destruct Hs as [[? ?]|Hs]; done ].
Qed.

(** X17.  What a translated command holds besides its UUIDs: the filter
    type, the address type, the name, the company and its mask, the data
    and its mask are the caller's, unchanged, and the address is the
    caller's taken through its string form. *)
Theorem translate_copies_fields (f : ApcfCommand.t uuid_t)
    (c : APCF.t hci_uuid_t) :
  translate f = Some c →
  APCF.filter_type c = ApcfCommand.type f
  ∧ APCF.application_address_type c = ApcfCommand.addr_type f
  ∧ APCF.name c = ApcfCommand.name f
  ∧ APCF.company c = ApcfCommand.company f
  ∧ APCF.company_mask c = ApcfCommand.company_mask f
  ∧ APCF.data c = ApcfCommand.data f
  ∧ APCF.data_mask c = ApcfCommand.data_mask f
  ∧ APCF.address c
    = (hci.Address.FromString (RawAddress.ToString (ApcfCommand.address f))
         default_Address).2.
Proof.
  unfold translate, parse_filter_command. cbv zeta.
  destruct (Uuid.IsEmpty (ApcfCommand.uuid f));
    [|destruct (uuid_switch _ (ApcfCommand.uuid f))];
    cbn [fmap option_fmap option_map];
    try (destruct (Uuid.IsEmpty (ApcfCommand.uuid_mask f));
         [|destruct (uuid_switch _ (ApcfCommand.uuid_mask f))]);
    cbn; intros Hc; try discriminate Hc;
    injection Hc as <-; repeat split.
Qed.

(** X18.  Whenever a command with a mask translates, the mask is
    converted at the width of the value UUID, whether that UUID is empty
    or not: as 16 bits when the value's size is 2, as 32 bits when it
    is 4, as 128 bits when it is 16.  A command without a mask keeps the
    mask of a default-constructed command, and one without a value UUID
    keeps that UUID. *)
Theorem translate_mask_width (f : ApcfCommand.t uuid_t)
    (c : APCF.t hci_uuid_t) :
  translate f = Some c →
  (Uuid.IsEmpty (ApcfCommand.uuid_mask f) = false →
   (uuid_len f = 2 →
    APCF.uuid_mask c
    = hci.Uuid.From16Bit (Uuid.As16Bit (ApcfCommand.uuid_mask f)))
   ∧ (uuid_len f = 4 →
      APCF.uuid_mask c
      = hci.Uuid.From32Bit (Uuid.As32Bit (ApcfCommand.uuid_mask f)))
   ∧ (uuid_len f = 16 →
      APCF.uuid_mask c
      = hci.Uuid.From128BitBE (Uuid.To128BitBE (ApcfCommand.uuid_mask f))))
  ∧ (Uuid.IsEmpty (ApcfCommand.uuid_mask f) = true →
     APCF.uuid_mask c = hci.Uuid.default)
  ∧ (Uuid.IsEmpty (ApcfCommand.uuid f) = true →
     APCF.uuid c = hci.Uuid.default).
Proof.
  unfold translate, parse_filter_command. cbv zeta.
  destruct (Uuid.IsEmpty (ApcfCommand.uuid f));
    [|destruct (uuid_switch _ (ApcfCommand.uuid f))];
    cbn [fmap option_fmap option_map];
    try (destruct (Uuid.IsEmpty (ApcfCommand.uuid_mask f));
         [|destruct (uuid_switch _ (ApcfCommand.uuid_mask f)) as [w|] eqn:Hw]);
    cbn; intros Hc; try discriminate Hc;
    injection Hc as <-; cbn; (split; [|split]); try done;
    intros _; repeat split; intros Hn; rewrite Hn in Hw;
    by injection Hw as <-.
Qed.

(** X19.  [parse_filter_command] has no effect but a log line: on any
    out-parameter and command it returns, having called nothing on the
    lower engine and posted nothing; it logs nothing when it returns
    [true] and one warning, with the size of the value UUID, when it
    returns [false].  In both cases the filter type and the address type
    of the out-parameter are already the caller's; when it returns [false]
    the name, the company and the data of the out-parameter are still what
    they were. *)
Theorem parse_filter_command_effects (command : APCF.t hci_uuid_t)
    (f : ApcfCommand.t uuid_t) (s : St) :
  ∃ (ok : bool) (c : APCF.t hci_uuid_t) (evs : list Ev),
    runs (parse_filter_command command f) s (ok, c) evs
    ∧ calls evs = [] ∧ posts evs = []
    ∧ evs = (if ok then []
             else [Log WARN "illegal UUID length %d" [uint16 (uuid_len f)]])
    ∧ APCF.filter_type c = ApcfCommand.type f
    ∧ APCF.application_address_type c = ApcfCommand.addr_type f
    ∧ (ok = false →
       APCF.name c = APCF.name command
       ∧ APCF.company c = APCF.company command
       ∧ APCF.company_mask c = APCF.company_mask command
       ∧ APCF.data c = APCF.data command
       ∧ APCF.data_mask c = APCF.data_mask command).
Proof.
  unfold parse_filter_command. cbv zeta.
  destruct (Uuid.IsEmpty (ApcfCommand.uuid f));
    [|destruct (uuid_switch _ (ApcfCommand.uuid f))];
    cbn [fmap option_fmap option_map];
    try (destruct (Uuid.IsEmpty (ApcfCommand.uuid_mask f));
         [|destruct (uuid_switch _ (ApcfCommand.uuid_mask f))]);
    cbn [fmap option_fmap option_map];
    first [ exists true; do 2 eexists; split; [apply runs_ret|];
            repeat split; done
          | exists false; do 2 eexists; split; [shim_run|];
            repeat split; done ].
Qed.

Lemma translate_None_runs (f : ApcfCommand.t uuid_t) (s : St) :
  translate f = None →
  ∃ c, runs (parse_filter_command command_init f) s (false, c)
         [Log WARN "illegal UUID length %d" [uint16 (uuid_len f)]].
Proof.
  unfold translate, parse_filter_command. cbv zeta.
  destruct (Uuid.IsEmpty (ApcfCommand.uuid f));
    [|destruct (uuid_switch _ (ApcfCommand.uuid f))];
    cbn [fmap option_fmap option_map];
    try (destruct (Uuid.IsEmpty (ApcfCommand.uuid_mask f));
         [|destruct (uuid_switch _ (ApcfCommand.uuid_mask f))]);
    cbn; intros Hc; try discriminate Hc; eexists; shim_run.
Qed.

Lemma translate_Some_runs (f : ApcfCommand.t uuid_t) (c : APCF.t hci_uuid_t)
    (s : St) :
  translate f = Some c →
  runs (parse_filter_command command_init f) s (true, c) [].
Proof.
  intros Hc. pose proof (translate_runs f s) as Hr. by rewrite Hc in Hr.
Qed.

(** The loop of [ScanFilterAdd] over commands that translate, followed by
    one that does not: it leaves at that one. *)
Lemma ScanFilterAdd_loop_stops (good : list (ApcfCommand.t uuid_t)) :
  ∀ (bad : ApcfCommand.t uuid_t) (rest : list (ApcfCommand.t uuid_t))
    (acc : list (APCF.t hci_uuid_t)) (s : St),
    Forall (λ f, is_Some (translate f)) good → translate bad = None →
    runs (ScanFilterAdd_loop (good ++ bad :: rest) acc) s None
      [ Log WARN "illegal UUID length %d" [uint16 (uuid_len bad)];
        Log ERROR "invalid apcf command" [] ].
Proof.
  induction good as [|g good IH]; intros bad rest acc s Hgood Hbad.
  - cbn [app ScanFilterAdd_loop].
    destruct (translate_None_runs bad s Hbad) as [c Hc].
    change [Log WARN "illegal UUID length %d" [uint16 (uuid_len bad)];
            Log ERROR "invalid apcf command" []]
      with ([Log WARN "illegal UUID length %d" [uint16 (uuid_len bad)]]
            ++ [Log (uuid_t := uuid_t) (hci_uuid_t := hci_uuid_t) ERROR
                  "invalid apcf command" []]).
    eapply runs_bind; [exact Hc|]. cbn beta iota. shim_run.
  - apply Forall_cons in Hgood as [[c Hc] Hgood].
    cbn [app ScanFilterAdd_loop].
    change [Log WARN "illegal UUID length %d" [uint16 (uuid_len bad)];
            Log ERROR "invalid apcf command" []]
      with ([] ++ [Log (uuid_t := uuid_t) (hci_uuid_t := hci_uuid_t) WARN
                     "illegal UUID length %d" [uint16 (uuid_len bad)];
                   Log ERROR "invalid apcf command" []]).
    eapply runs_bind; [exact (translate_Some_runs g c s Hc)|].
    cbn beta iota. by apply IH.
Qed.

(** X20.  [ScanFilterAdd] leaves at the first command that does not
    translate: whatever follows it in the batch is not looked at.  The
    whole of what the call does is then three log lines: its own, the
    warning with the size of that command's value UUID, and the error. *)
Theorem ScanFilterAdd_stops_at_first_failure (filter_index : Z)
    (good : list (ApcfCommand.t uuid_t)) (bad : ApcfCommand.t uuid_t)
    (rest : list (ApcfCommand.t uuid_t)) (cb : Callback) (s : St) :
  Forall (λ f, is_Some (translate f)) good → translate bad = None →
  runs (ScanFilterAdd filter_index (good ++ bad :: rest) cb) s tt
    [ Log INFO "ScanFilterAdd in shim layer" [];
      Log WARN "illegal UUID length %d" [uint16 (uuid_len bad)];
      Log ERROR "invalid apcf command" [] ].
Proof.
  intros Hgood Hbad. unfold ScanFilterAdd.
  change [Log INFO "ScanFilterAdd in shim layer" [];
          Log WARN "illegal UUID length %d" [uint16 (uuid_len bad)];
          Log ERROR "invalid apcf command" []]
    with ([Log (uuid_t := uuid_t) (hci_uuid_t := hci_uuid_t) INFO
             "ScanFilterAdd in shim layer" []]
          ++ ([Log WARN "illegal UUID length %d" [uint16 (uuid_len bad)];
               Log ERROR "invalid apcf command" []] ++ [])).
  eapply runs_bind; [apply runs_emit|].
  eapply runs_bind; [by apply ScanFilterAdd_loop_stops|]. apply runs_ret.
Qed.

(** X21.  [SetScanParameters] looks at the first element of each vector
    only, and not at [scan_phy]: calls that agree on the two first
    elements and on the callback do the same, whatever the PHY and the
    rest of the vectors.  When either vector is empty the call has no
    defined result. *)
Theorem SetScanParameters_first_elements (scan_phy scan_phy' : Z)
    (interval window : Z) (more more' rest rest' : list Z) (cb : Callback) (s : St) :
  SetScanParameters scan_phy (interval :: more) (window :: rest) cb s
  = SetScanParameters scan_phy' (interval :: more') (window :: rest') cb s
  ∧ SetScanParameters scan_phy [] (window :: rest) cb s = None
  ∧ SetScanParameters scan_phy (interval :: more) [] cb s = None
  ∧ SetScanParameters scan_phy [] [] cb s = None.
Proof. repeat split. Qed.

(** X22.  The methods whose body is a log line or empty
    ([ScanFilterClear], the batch-scan and periodic-sync methods, the
    [On...] handlers other than [OnScannerRegistered] and [OnScanResult])
    return without calling the lower engine and without posting anything:
    no callback handed to one of them is ever invoked.  Each leaves at most
    one log line. *)
Theorem stubs_do_nothing (m : Method) (s : St) :
  is_stub m = true →
  ∃ evs, runs (invoke m) s tt evs
         ∧ calls evs = [] ∧ posts evs = [] ∧ (length evs ≤ 1)%nat.
Proof.
  destruct m; cbn [is_stub invoke]; intros Hstub; try discriminate Hstub;
    first [ exists []; split; [apply runs_ret | repeat split; simpl; lia]
          | eexists; split; [apply runs_emit | repeat split; simpl; lia] ].
Qed.

Lemma ScanFilterAdd_runs (filter_index : Z)
    (filters : list (ApcfCommand.t uuid_t)) (cb : Callback) (s : St) :
  ∃ evs, runs (ScanFilterAdd filter_index filters cb) s tt evs.
Proof.
  pose proof (ScanFilterAdd_loop_runs filters []
                (mkState (scanning_callbacks_ s)
                   (trace s ++ [Log INFO "ScanFilterAdd in shim layer" []])))
    as Hloop.
  unfold ScanFilterAdd.
  destruct (mapM translate filters) as [l|].
  - eexists. eapply runs_bind; [apply runs_emit|].
    eapply runs_bind; [exact Hloop|]. shim_run.
  - destruct Hloop as (evs & Hrun & _).
    eexists. eapply runs_bind; [apply runs_emit|].
    eapply runs_bind; [exact Hrun|]. apply runs_ret.
Qed.

(** Every method but [RegisterCallbacks] that returns has left
    [scanning_callbacks_] alone and only added to the trace. *)
Lemma invoke_runs (m : Method) (s s' : St) :
  is_RegisterCallbacks m = false → invoke m s = Some (tt, s') →
  ∃ evs, runs (invoke m) s tt evs.
Proof.
  intros Hm Hs'.
  destruct m; cbn [invoke is_RegisterCallbacks] in *; try discriminate Hm;
    try solve [ eexists; apply runs_ret | eexists; apply runs_emit
              | eexists;
                unfold Init, RegisterScanner, Unregister, Scan,
                  ScanFilterEnable, OnScannerRegistered, OnScanResult,
                  get_scanning_callbacks_;
                shim_run ].
  - destruct filt_param as [fp|].
    + destruct (ScanFilterParamSetup_fields_aux client_if action filter_index
                  fp cb s) as [p Hp]. eauto.
    + eexists. unfold ScanFilterParamSetup. shim_run.
  - apply ScanFilterAdd_runs.
  - destruct scan_interval as [|i ?], scan_window as [|w ?];
      try discriminate Hs'.
    eexists. unfold SetScanParameters. shim_run.
Qed.

Lemma invoke_all_runs (ms : list Method) :
  ∀ s s' : St,
    forallb (λ m, negb (is_RegisterCallbacks m)) ms = true →
    invoke_all ms s = Some (tt, s') →
    ∃ evs, s' = mkState (scanning_callbacks_ s) (trace s ++ evs).
Proof.
  induction ms as [|m ms IH]; intros s s' Hms Hrun.
  - injection Hrun as <-. exists []. destruct s. simpl. by rewrite app_nil_r.
  - cbn [forallb] in Hms. apply andb_prop in Hms as [Hm Hms].
    apply negb_true_iff in Hm.
    cbn [invoke_all] in Hrun. unfold mbind, Shim_bind in Hrun.
    destruct (invoke m s) as [[[] s1]|] eqn:Hm1; [|discriminate Hrun].
    destruct (invoke_runs m s s1 Hm Hm1) as [e1 He1].
    unfold runs in He1. rewrite Hm1 in He1. injection He1 as ->.
    destruct (IH _ s' Hms Hrun) as [e2 ->]. cbn.
    exists (e1 ++ e2). by rewrite app_assoc.
Qed.

(** X23.  The closures for the upper callback sink are bound to the sink
    that the last [RegisterCallbacks] named.  After
    [RegisterCallbacks(callbacks)] and any calls of the other methods that
    return, [scanning_callbacks_] is still [callbacks], nothing was taken
    from the trace, and [OnScanResult] and [OnScannerRegistered] post a
    closure bound to [callbacks]. *)
Theorem closures_bound_to_registered_sink
    (callbacks : option ScanningCallbacks) (ms : list Method) (s s' : St) :
  forallb (λ m, negb (is_RegisterCallbacks m)) ms = true →
  (RegisterCallbacks callbacks;; invoke_all ms) s = Some (tt, s') →
  scanning_callbacks_ s' = callbacks
  ∧ (∃ evs, trace s' = trace s ++ evs)
  ∧ (∀ event_type address_type address primary_phy secondary_phy
       advertising_sid tx_power rssi periodic_advertising_interval
       advertising_data,
       runs (OnScanResult event_type address_type address primary_phy
               secondary_phy advertising_sid tx_power rssi
               periodic_advertising_interval advertising_data) s' tt
         [ Post (BindOnce_OnScanResult callbacks event_type address_type
                   (RawAddress.FromString (hci.Address.ToString address)
                      default_RawAddress).2
                   primary_phy secondary_phy advertising_sid tx_power rssi
                   periodic_advertising_interval advertising_data) ])
  ∧ (∀ app_uuid scanner_id status,
       runs (OnScannerRegistered app_uuid scanner_id status) s' tt
         [ Post (Bind_OnScannerRegistered callbacks
                   (Uuid.From128BitBE (hci.Uuid.To128BitBE app_uuid))
                   scanner_id status) ]).
Proof.
  intros Hms Hrun.
  unfold RegisterCallbacks, LOG, emit, set_scanning_callbacks_ in Hrun.
  unfold mbind at 1 2, Shim_bind in Hrun. cbn beta iota in Hrun.
  destruct (invoke_all_runs ms _ s' Hms Hrun) as [evs ->].
  cbn [scanning_callbacks_ trace].
  split; [done|]. split.
  - eexists. by rewrite <- app_assoc.
  - split; intros;
      unfold OnScanResult, OnScannerRegistered, get_scanning_callbacks_;
      shim_run.
Qed.

(** X24.  The registration handshake gives the application its UUID
    back: if both UUID classes return from [To128BitBE] the sixteen bytes
    they were built from with [From128BitBE], then the UUID that
    [OnScannerRegistered] posts for the lower engine's UUID of
    [RegisterScanner(uuid)] has the same sixteen bytes as [uuid], and the
    scanner id and the status are posted as they came. *)
Theorem registration_returns_the_uuid (uuid : uuid_t) (cb : Callback)
    (scanner_id status : Z) (s s1 : St) :
  length (Uuid.To128BitBE uuid) = 16%nat →
  (∀ b : list byte, length b = 16%nat →
     hci.Uuid.To128BitBE (hci.Uuid.From128BitBE b : hci_uuid_t) = b) →
  (∀ b : list byte, length b = 16%nat →
     Uuid.To128BitBE (Uuid.From128BitBE b : uuid_t) = b) →
  ∃ (app_uuid : hci_uuid_t) (uuid' : uuid_t),
    runs (RegisterScanner uuid cb) s tt
      [ Log INFO "RegisterScanner in shim layer" [];
        Call (Scanning_RegisterScanner app_uuid) ]
    ∧ runs (OnScannerRegistered app_uuid scanner_id status) s1 tt
        [ Post (Bind_OnScannerRegistered (scanning_callbacks_ s1) uuid'
                  scanner_id status) ]
    ∧ Uuid.To128BitBE uuid' = Uuid.To128BitBE uuid.
Proof.
  intros Hlen Hhci Hbt. do 2 eexists. split; [|split].
  - unfold RegisterScanner. shim_run.
  - unfold OnScannerRegistered, get_scanning_callbacks_. shim_run.
  - rewrite Hhci by done. by apply Hbt.
Qed.

(** X25.  The process-wide instance: [get_ble_scanner_instance] creates
    the shim on the first call only, with no sink and an empty trace, and
    afterwards returns the one it has, state and all;
    [init_scanning_manager] after it registers the shim with the lower
    engine, once, and changes nothing else; [init_scanning_manager] before
    any [get_ble_scanner_instance] goes through a null pointer. *)
Theorem instance_lifecycle (g : option St) :
  get_ble_scanner_instance (get_ble_scanner_instance g)
  = get_ble_scanner_instance g
  ∧ get_ble_scanner_instance (None : option St) = Some init
  ∧ (∀ this : St, get_ble_scanner_instance (Some this) = Some this)
  ∧ init_scanning_manager (None : option St) = None
  ∧ ∃ this : St,
      get_ble_scanner_instance g = Some this
      ∧ init_scanning_manager (get_ble_scanner_instance g)
        = Some (Some (mkState (scanning_callbacks_ this)
                        (trace this
                         ++ [Call Scanning_RegisterScanningCallback]))).
Proof.
  repeat split; try by destruct g.
  destruct g as [this|]; eexists; (split; [reflexivity|]); reflexivity.
Qed.

End ShimMoreFacts.

(** ** The further theorems at concrete inputs *)

(** X1 at the value 0x1234, written at offset 1 of a four-byte buffer. *)
Lemma UINT16_stream_roundtrip_witness :
  ∃ buf' : list byte,
    Stream.UINT16_TO_STREAM [x00; x00; x00; x00] 1 0x1234
    = Some (buf', 3%nat)
    ∧ buf' = [x00; x34; x12; x00]
    ∧ Stream.STREAM_TO_UINT16 buf' 1 = Some (0x1234, 3%nat).
Proof.
  apply (UINT16_stream_roundtrip [x00; x00; x00; x00] 1 0x1234).
  simpl. lia.
Defined.

(** X2 at the value 0x123456. *)
Lemma UINT24_stream_roundtrip_witness :
  ∃ buf' : list byte,
    Stream.UINT24_TO_STREAM [x00; x00; x00; x00] 1 0x123456
    = Some (buf', 4%nat)
    ∧ buf' = [x00; x56; x34; x12]
    ∧ Stream.STREAM_TO_UINT24 buf' 1 = Some (0x123456, 4%nat).
Proof.
  apply (UINT24_stream_roundtrip [x00; x00; x00; x00] 1 0x123456).
  simpl. lia.
Defined.

(** X3 at the value 0x12345678. *)
Lemma UINT32_stream_roundtrip_witness :
  ∃ buf' : list byte,
    Stream.UINT32_TO_STREAM [x00; x00; x00; x00; x00] 1 0x12345678
    = Some (buf', 5%nat)
    ∧ buf' = [x00; x78; x56; x34; x12]
    ∧ Stream.STREAM_TO_UINT32 buf' 1 = Some (0x12345678, 5%nat).
Proof.
  apply (UINT32_stream_roundtrip [x00; x00; x00; x00; x00] 1 0x12345678).
  simpl. lia.
Defined.

(** X4 at the value 0x1234. *)
Lemma UINT16_BE_stream_roundtrip_witness :
  ∃ buf' : list byte,
    Stream.UINT16_TO_BE_STREAM [x00; x00; x00; x00] 1 0x1234
    = Some (buf', 3%nat)
    ∧ buf' = [x00; x12; x34; x00]
    ∧ Stream.BE_STREAM_TO_UINT16 buf' 1 = Some (0x1234, 3%nat).
Proof.
  apply (UINT16_BE_stream_roundtrip [x00; x00; x00; x00] 1 0x1234).
  simpl. lia.
Defined.

(** X5 at the value 0x123456. *)
Lemma UINT24_BE_stream_roundtrip_witness :
  ∃ buf' : list byte,
    Stream.UINT24_TO_BE_STREAM [x00; x00; x00; x00] 1 0x123456
    = Some (buf', 4%nat)
    ∧ buf' = [x00; x12; x34; x56]
    ∧ Stream.BE_STREAM_TO_UINT24 buf' 1 = Some (0x123456, 4%nat).
Proof.
  apply (UINT24_BE_stream_roundtrip [x00; x00; x00; x00] 1 0x123456).
  simpl. lia.
Defined.

(** X6 at the value 0x12345678. *)
Lemma UINT32_BE_stream_roundtrip_witness :
  ∃ buf' : list byte,
    Stream.UINT32_TO_BE_STREAM [x00; x00; x00; x00; x00] 1 0x12345678
    = Some (buf', 5%nat)
    ∧ buf' = [x00; x12; x34; x56; x78]
    ∧ Stream.BE_STREAM_TO_UINT32 buf' 1 = Some (0x12345678, 5%nat).
Proof.
  apply (UINT32_BE_stream_roundtrip [x00; x00; x00; x00; x00] 1 0x12345678).
  simpl. lia.
Defined.

(** X7 at the value 0x0102030405060708. *)
Lemma UINT64_BE_stream_roundtrip_witness :
  ∃ buf' : list byte,
    Stream.UINT64_TO_BE_STREAM (replicate 8 x00) 0 0x0102030405060708
    = Some (buf', 8%nat)
    ∧ buf' = [x01; x02; x03; x04; x05; x06; x07; x08]
    ∧ Stream.BE_STREAM_TO_UINT64 buf' 0
      = Some (0x0102030405060708, 8%nat).
Proof.
  apply (UINT64_BE_stream_roundtrip (replicate 8 x00) 0 0x0102030405060708).
  simpl. lia.
Defined.

(** X8 on the bytes 01 .. 08. *)
Lemma STREAM_TO_UINT64_halves_witness :
  Stream.STREAM_TO_UINT64 [x01; x02; x03; x04; x05; x06; x07; x08] 0
  = Some (0x04030201 + 0x08070605 * 2 ^ 32, 8%nat)
  ∧ Stream.BE_STREAM_TO_UINT64 [x01; x02; x03; x04; x05; x06; x07; x08] 0
    = Some (0x01020304 * 2 ^ 32 + 0x05060708, 8%nat).
Proof.
  destruct (STREAM_TO_UINT64_halves
              [x01; x02; x03; x04; x05; x06; x07; x08] 0)
    as (lo & hi & Hlo & Hhi & H64 & hi' & lo' & Hhi' & Hlo' & HBE);
    [simpl; lia|].
  injection Hlo as <-. injection Hhi as <-.
  injection Hhi' as <-. injection Hlo' as <-.
  split; [exact H64 | exact HBE].
Defined.

(** X9 with three bytes of a four-byte array. *)
Lemma ARRAY_stream_roundtrip_witness :
  ∃ buf' : list byte,
    Stream.ARRAY_TO_STREAM [x00; x00; x00; x00; x00] 1
      [x0a; x0b; x0c; x0d] 3
    = Some (buf', 4%nat)
    ∧ buf' = [x00; x0a; x0b; x0c; x00]
    ∧ Stream.STREAM_TO_ARRAY [xff; xff; xff; xff] buf' 1 3
      = Some ([x0a; x0b; x0c; xff], 4%nat).
Proof.
  apply (ARRAY_stream_roundtrip [x0a; x0b; x0c; x0d] [xff; xff; xff; xff]
           [x00; x00; x00; x00; x00] 1 3); simpl; lia.
Defined.

(** X10 with three bytes of a four-byte array. *)
Lemma REVERSE_ARRAY_stream_roundtrip_witness :
  ∃ buf' : list byte,
    Stream.REVERSE_ARRAY_TO_STREAM [x00; x00; x00; x00; x00] 1
      [x0a; x0b; x0c; x0d] 3
    = Some (buf', 4%nat)
    ∧ buf' = [x00; x0c; x0b; x0a; x00]
    ∧ Stream.REVERSE_STREAM_TO_ARRAY [xff; xff; xff; xff] buf' 1 3
      = Some ([x0a; x0b; x0c; xff], 4%nat)
    ∧ Stream.STREAM_TO_ARRAY [xff; xff; xff; xff] buf' 1 3
      = Some ([x0c; x0b; x0a; xff], 4%nat).
Proof.
  apply (REVERSE_ARRAY_stream_roundtrip [x0a; x0b; x0c; x0d]
           [xff; xff; xff; xff] [x00; x00; x00; x00; x00] 1 3); simpl; lia.
Defined.

(** X11 at a device class and at an eight-byte array. *)
Lemma fixed_ARRAY_stream_roundtrips_witness :
  (∃ buf' : list byte,
     Stream.DEVCLASS_TO_STREAM [x00; x00; x00; x00] 1 [x5a; x02; x0c]
     = Some (buf', 4%nat)
     ∧ buf' = [x00; x0c; x02; x5a]
     ∧ Stream.STREAM_TO_DEVCLASS [x00; x00; x00] buf' 1
       = Some ([x5a; x02; x0c], 4%nat))
  ∧ (∃ buf' : list byte,
       Stream.ARRAY8_TO_STREAM (replicate 8 x00) 0
         [x01; x02; x03; x04; x05; x06; x07; x08]
       = Some (buf', 8%nat)
       ∧ buf' = [x08; x07; x06; x05; x04; x03; x02; x01]
       ∧ Stream.STREAM_TO_ARRAY8 (replicate 8 x00) buf' 0
         = Some ([x01; x02; x03; x04; x05; x06; x07; x08], 8%nat)).
Proof.
  split.
  - pose proof (fixed_ARRAY_stream_roundtrips [x5a; x02; x0c]
                  [x00; x00; x00] [x00; x00; x00; x00] 1) as Hw.
    cbv zeta in Hw. destruct Hw as (_ & _ & _ & _ & Hdc).
    apply Hdc;
      [reflexivity | reflexivity | unfold Stream.DEV_CLASS_LEN; simpl; lia].
  - pose proof (fixed_ARRAY_stream_roundtrips
                  [x01; x02; x03; x04; x05; x06; x07; x08]
                  (replicate 8 x00) (replicate 8 x00) 0) as Hw.
    cbv zeta in Hw. destruct Hw as (H8 & _).
    apply H8; [reflexivity | reflexivity | simpl; lia].
Defined.

(** X15 at the opcode 0xFC57 with parameter length 3, at offset 2. *)
Lemma HCI_header_roundtrip_witness :
  ∃ d1 d2 : list byte,
    Stream.UINT16_TO_STREAM (replicate 6 x00) 2 0xFC57 = Some (d1, 4%nat)
    ∧ Stream.UINT8_TO_STREAM d1 4 3 = Some (d2, 5%nat)
    ∧ Stream.HCI_GET_CMD_HDR_OPCODE (Stream.mkBT_HDR 0x2000 3 2 0 d2)
      = Some 0xFC57
    ∧ Stream.HCI_GET_CMD_HDR_PARAM_LEN (Stream.mkBT_HDR 0x2000 3 2 0 d2)
      = Some 3.
Proof.
  pose proof (HCI_header_roundtrip
                (Stream.mkBT_HDR 0x2000 3 2 0 (replicate 6 x00)) 0xFC57 3)
    as Hw.
  cbv zeta in Hw. destruct Hw as [Hcmd _]; [simpl; lia|]. exact Hcmd.
Defined.

(** X17 at the command of scenario S2. *)
Lemma translate_copies_fields_witness :
  APCF.filter_type (command_with 3 (SumUuid.U16 0x180F) (SumUuid.U16 0xFFFF))
  = ApcfCommand.type apcf_S2
  ∧ APCF.address (command_with 3 (SumUuid.U16 0x180F) (SumUuid.U16 0xFFFF))
    = hci.Address.mk (replicate 6 x00).
Proof.
  destruct (translate_copies_fields apcf_S2
              (command_with 3 (SumUuid.U16 0x180F) (SumUuid.U16 0xFFFF)))
    as (Ht & _ & _ & _ & _ & _ & _ & Ha); [reflexivity|].
  split; [exact Ht | exact Ha].
Defined.

(** X18 at the command with a mask and no value UUID. *)
Lemma translate_mask_width_witness :
  APCF.uuid_mask (command_with 3 SumUuid.Empty
                    (SumUuid.U128 (replicate 16 xff)))
  = SumUuid.U128 (replicate 16 xff).
Proof.
  destruct (translate_mask_width apcf_mask_only
              (command_with 3 SumUuid.Empty
                 (SumUuid.U128 (replicate 16 xff))))
    as (Hm & _); [reflexivity|].
  destruct Hm as (_ & _ & H128); [reflexivity|]. apply H128. reflexivity.
Defined.

(** X20 at a batch of S2, S3 and S2 again. *)
Lemma ScanFilterAdd_stops_at_first_failure_witness :
  runs (ScanFilterAdd 0 [apcf_S2; apcf_S3; apcf_S2] 5) init0 tt
    [ Log INFO "ScanFilterAdd in shim layer" [];
      Log WARN "illegal UUID length %d" [8];
      Log ERROR "invalid apcf command" [] ].
Proof.
  assert (Hgood : Forall (λ f, is_Some (translate (hci_uuid_t := SumUuid.t) f))
                    [apcf_S2])
    by (constructor; [by eexists | constructor]).
  exact (ScanFilterAdd_stops_at_first_failure 0 [apcf_S2] apcf_S3 [apcf_S2]
           5 init0 Hgood eq_refl).
Defined.

(** X22 at [BatchscanDisable]. *)
Lemma stubs_do_nothing_witness :
  ∃ evs, runs (invoke (M_BatchscanDisable 5)) init0 tt evs
         ∧ calls evs = [] ∧ posts evs = [] ∧ (length evs ≤ 1)%nat.
Proof. apply (stubs_do_nothing (M_BatchscanDisable 5) init0). reflexivity. Defined.

(** X23 at the sink 9, with a [Scan] and an [Unregister] before the scan
    result. *)
Lemma closures_bound_to_registered_sink_witness :
  runs (OnScanResult 0x13 0 (hci.Address.mk [xaa; xbb; xcc; xdd; xee; xff])
          1 0 0 0 (-60) 0 [x02; x01; x06])
    (mkState (Some 9)
       [ Log INFO "RegisterCallbacks in shim layer" [];
         Log INFO "Scan in shim layer" [];
         Call (Scanning_Scan true);
         Log INFO "Unregister in shim layer, scanner_id:" [3];
         Call (Scanning_Unregister 3) ] : @State StubUuid.t SumUuid.t) tt
    [ Post (BindOnce_OnScanResult (Some 9) 0x13 0
              (RawAddress.mk [xaa; xbb; xcc; xdd; xee; xff]) 1 0 0 0 (-60) 0
              [x02; x01; x06]) ].
Proof.
  destruct (closures_bound_to_registered_sink (Some 9)
              [M_Scan true; M_Unregister 3] init0
              (mkState (Some 9)
                 [ Log INFO "RegisterCallbacks in shim layer" [];
                   Log INFO "Scan in shim layer" [];
                   Call (Scanning_Scan true);
                   Log INFO "Unregister in shim layer, scanner_id:" [3];
                   Call (Scanning_Unregister 3) ]))
    as (_ & _ & Hscan & _); [reflexivity | reflexivity |].
  apply Hscan.
Defined.

(** X24 at a 128-bit UUID of sixteen 0xAB bytes. *)
Lemma registration_returns_the_uuid_witness :
  ∃ (app_uuid : SumUuid.t) (uuid' : StubUuid.t),
    runs (RegisterScanner (StubUuid.u128 (replicate 16 xab)) 5) init0 tt
      [ Log INFO "RegisterScanner in shim layer" [];
        Call (Scanning_RegisterScanner app_uuid) ]
    ∧ runs (OnScannerRegistered app_uuid 7 0) init0 tt
        [ Post (Bind_OnScannerRegistered None uuid' 7 0) ]
    ∧ Uuid.To128BitBE uuid' = replicate 16 xab.
Proof.
  exact (registration_returns_the_uuid (StubUuid.u128 (replicate 16 xab)) 5
           7 0 init0 init0 eq_refl (λ b _, eq_refl) (λ b _, eq_refl)).
Defined.
